(** * SynapseWatcher: a shallow embedding of [synapsewatcher.py]

    The development follows the source file top-down: the values Python
    hands to the program (decoded JSON, paths, exceptions), the
    [SynapseMessage] dataclass with [from_file], [MessageFilter.matches],
    and the [SynapseWatcher] class with its detection step, its dispatch
    step, the watch loop and [start]/[stop].

    Everything the program reads from outside (the directory listing of
    each poll cycle, what [json.load] returns for a file, what a callback
    does) is an explicit input of the model.  Logging calls and callback
    invocations are recorded as a trace of events. *)

From Stdlib Require Import Ascii String List Bool Arith Lia.
From stdpp Require Import base decidable option list gmap strings pretty.

Set Warnings "-register-all,-clear-no-such-hyp".

Local Open Scope string_scope.
Local Open Scope list_scope.

(** ** Python values and exceptions *)

(** What [json.load] can produce.  A float is kept by its [repr]; a
    [dict] keeps its insertion order, which [json.dumps] prints. *)
Inductive pyval : Type :=
| PyNone
| PyBool (b : bool)
| PyInt (z : Z)
| PyFloat (repr : string)
| PyStr (s : string)
| PyList (l : list pyval)
| PyDict (d : list (string * pyval)).

(** The exception classes the program meets.  [KeyboardInterrupt] and
    [SystemExit] derive from [BaseException] only; every other class
    derives from [Exception]; [JSONDecodeError] derives from [ValueError]. *)
Inductive exc_class : Type :=
| KeyboardInterrupt
| SystemExit
| JSONDecodeError
| OSError
| UnicodeDecodeError
| AttributeError
| TypeError
| ValueError
| RuntimeError.

Record exc : Type := mkExc { exc_cls : exc_class; exc_text : string }.

(** [isinstance(e, Exception)] *)
Definition is_Exception (e : exc) : bool :=
  match exc_cls e with
  | KeyboardInterrupt | SystemExit => false
  | _ => true
  end.

(** [isinstance(e, json.JSONDecodeError)] *)
Definition is_JSONDecodeError (e : exc) : bool :=
  match exc_cls e with
  | JSONDecodeError => true
  | _ => false
  end.

(** [isinstance(e, KeyboardInterrupt)] *)
Definition is_KeyboardInterrupt (e : exc) : bool :=
  match exc_cls e with
  | KeyboardInterrupt => true
  | _ => false
  end.

(** A Python call either returns a value or raises. *)
Inductive result (A : Type) : Type :=
| Ok (a : A)
| Raise (e : exc).
Arguments Ok {A} a.
Arguments Raise {A} e.

(** [d.get(key, default)] on a [dict]. *)
Fixpoint dict_get (d : list (string * pyval)) (key : string) (default : pyval) : pyval :=
  match d with
  | [] => default
  | (k, v) :: rest => if String.eqb k key then v else dict_get rest key default
  end.

(** [key in d] *)
Definition dict_has (d : list (string * pyval)) (key : string) : bool :=
  existsb (fun kv => String.eqb (fst kv) key) d.

(** [v == s] for a [str] s: only an equal [str] compares equal. *)
Definition py_eq_str (v : pyval) (s : string) : bool :=
  match v with
  | PyStr t => String.eqb t s
  | _ => false
  end.

(** [s in l] for a [str] s and a [list] l. *)
Definition str_in_list (s : string) (l : list pyval) : bool :=
  existsb (fun v => py_eq_str v s) l.

(** [kw in text] for two [str]: the substring test. *)
Fixpoint str_in (kw text : string) : bool :=
  if String.prefix kw text then true
  else match text with
       | EmptyString => false
       | String _ rest => str_in kw rest
       end.

(** The library functions [matches] calls are taken as an interface:
    [str.lower], [json.dumps] and [str()]. *)
Class PyRuntime : Type := {
  str_lower : string -> string;
  json_dumps : pyval -> string;
  py_str : pyval -> string
}.

(** ** Paths *)

(** A [Path] of a file in the inbox directory, by its final component. *)
Record Path : Type := mkPath { name : string }.

Global Instance Path_eq_dec : EqDecision Path.
Proof. solve_decision. Defined.

(** [name.rfind('.')], [None] standing for -1. *)
Fixpoint rfind_dot (s : string) : option nat :=
  match s with
  | EmptyString => None
  | String c rest =>
      match rfind_dot rest with
      | Some i => Some (S i)
      | None => if Ascii.eqb c "."%char then Some 0 else None
      end
  end.

(** [name[:i]] *)
Fixpoint str_take (i : nat) (s : string) : string :=
  match i, s with
  | S j, String c rest => String c (str_take j rest)
  | _, _ => EmptyString
  end.

(** [PurePath.stem]: the name up to its last dot, unless that dot is the
    first or the last character. *)
Definition stem (p : Path) : string :=
  match rfind_dot (name p) with
  | Some i =>
      if Nat.ltb 0 i && Nat.ltb i (String.length (name p) - 1)
      then str_take i (name p)
      else name p
  | None => name p
  end.

(** What [json.load(open(filepath))] gives for each file: the decoded
    value, or the exception raised by [open] or by the decoder. *)
Definition FileSystem : Type := Path -> result pyval.

(** ** SynapseMessage *)

Module SynapseMessage.

(** The dataclass.  Its annotations are not enforced: a field holds
    whatever the payload held under its key. *)
Record t : Type := mk {
  msg_id : pyval;
  from_agent : pyval;
  to : pyval;
  subject : pyval;
  body : pyval;
  priority : pyval;
  timestamp : pyval;
  filepath : Path
}.

(** [SynapseMessage.from_file].  A payload that is not an object has no
    [get] method. *)
Definition from_file (fs : FileSystem) (filepath : Path) : result t :=
  match fs filepath with
  | Raise e => Raise e
  | Ok (PyDict data) =>
      Ok {| msg_id := dict_get data "msg_id" (dict_get data "message_id" (PyStr "unknown"));
            from_agent := dict_get data "from" (dict_get data "from_agent" (PyStr "UNKNOWN"));
            to := dict_get data "to" (PyList []);
            subject := dict_get data "subject" (PyStr "");
            body := dict_get data "body" (PyDict []);
            priority := dict_get data "priority" (PyStr "NORMAL");
            timestamp := dict_get data "timestamp" (PyStr "");
            filepath := filepath |}
  | Ok _ => Raise (mkExc AttributeError "object has no attribute 'get'")
  end.

End SynapseMessage.

(** ** MessageFilter *)

Module MessageFilter.

Record t : Type := mk {
  to_agent : option string;
  from_agent : option string;
  priority : option string;
  keywords : list string
}.

(** [MessageFilter.__init__]: every argument defaults to [None], and
    [keywords or []] turns a missing or empty list into the empty list. *)
Definition __init__ (to_agent from_agent priority : option string)
    (keywords : option (list string)) : t :=
  {| to_agent := to_agent;
     from_agent := from_agent;
     priority := priority;
     keywords := match keywords with Some l => l | None => [] end |}.

(** Truth value of an [Optional[str]]: [None] and the empty string are
    false. *)
Definition truthy (o : option string) : bool :=
  match o with
  | Some s => negb (String.eqb s "")
  | None => false
  end.

(** [message.to if isinstance(message.to, list) else [message.to]] *)
Definition to_list (message : SynapseMessage.t) : list pyval :=
  match SynapseMessage.to message with
  | PyList l => l
  | v => [v]
  end.

(** The condition of the first [return False]. *)
Definition to_agent_fails (self : t) (message : SynapseMessage.t) : bool :=
  match to_agent self with
  | Some a =>
      truthy (Some a)
      && (negb (str_in_list a (to_list message))
          && negb (str_in_list "ALL_AGENTS" (to_list message))
          && negb (str_in_list "ALL" (to_list message)))
  | None => false
  end.

(** [self.from_agent and message.from_agent != self.from_agent] *)
Definition from_agent_fails (self : t) (message : SynapseMessage.t) : bool :=
  match from_agent self with
  | Some a => truthy (Some a) && negb (py_eq_str (SynapseMessage.from_agent message) a)
  | None => false
  end.

(** [self.priority and message.priority != self.priority] *)
Definition priority_fails (self : t) (message : SynapseMessage.t) : bool :=
  match priority self with
  | Some a => truthy (Some a) && negb (py_eq_str (SynapseMessage.priority message) a)
  | None => false
  end.

(** [json.dumps(message.body) if isinstance(message.body, dict) else
    str(message.body)] *)
Definition body_text `{PyRuntime} (message : SynapseMessage.t) : string :=
  match SynapseMessage.body message with
  | PyDict d => json_dumps (PyDict d)
  | v => py_str v
  end.

(** The keyword block, entered when [self.keywords] is not empty:
    [Ok true] when some keyword is found, [Ok false] when the block
    returns [False].  Adding [" "] to a subject that is not a [str]
    raises [TypeError]. *)
Definition keywords_pass `{PyRuntime} (self : t) (message : SynapseMessage.t) : result bool :=
  match SynapseMessage.subject message with
  | PyStr s =>
      let text := str_lower (s ++ " " ++ body_text message) in
      Ok (existsb (fun kw => str_in (str_lower kw) text) (keywords self))
  | _ => Raise (mkExc TypeError "unsupported operand type(s) for +")
  end.

(** [MessageFilter.matches] *)
Definition matches `{PyRuntime} (self : t) (message : SynapseMessage.t) : result bool :=
  if to_agent_fails self message then Ok false
  else if from_agent_fails self message then Ok false
  else if priority_fails self message then Ok false
  else match keywords self with
       | [] => Ok true
       | _ :: _ =>
           match keywords_pass self message with
           | Ok found => if negb found then Ok false else Ok true
           | Raise e => Raise e
           end
       end.

End MessageFilter.

(** ** Observable events *)

Inductive level : Type := DEBUG | INFO | WARNING | ERROR.

(** The texts the program logs, by the call that writes them. *)
Inductive log_text : Type :=
| RegisteredCallback (callback : string)
| FilterSet
| ErrorDetecting (e : exc)
| FilteredOut (msg_id : pyval)
| NewMessage (msg_id from_agent subject : pyval)
| CallbackError (callback : string) (e : exc)
| InvalidJSON (filename : string) (e : exc)
| ErrorProcessing (filename : string) (e : exc)
| Watching
| PollInterval (ticks : nat)
| CallbacksRegistered (n : nat)
| MarkedExisting (n : nat)
| KeyboardInterruptReceived
| ErrorInWatchLoop (e : exc)
| AlreadyRunning
| NoCallbacks
| Started
| Stopped
| StopRequested.

(** What the program does to the outside: a logger call, [open] on a
    message file, a callback invocation, a [time.sleep]. *)
Inductive event : Type :=
| Log (lvl : level) (text : log_text)
| Open (filepath : Path)
| Call (callback : string) (message : SynapseMessage.t)
| Sleep (ticks : nat).

(** A registered callback: a function with a [__name__]; called on a
    message it returns ([None]) or raises. *)
Record Callback : Type := mkCallback {
  __name__ : string;
  call : SynapseMessage.t -> option exc
}.

(** What [synapse_path.glob] yields when it is iterated: entries, and
    possibly an exception after them. *)
Record Listing : Type := mkListing {
  entries : list Path;
  failure : option exc
}.

(** What one iteration of the loop sees: the directory, the files'
    contents, and whether another thread calls [stop] before the
    iteration ends. *)
Record Cycle : Type := mkCycle {
  listing : Listing;
  files : FileSystem;
  stop_called : bool
}.

(** How a call of the loop (or of [start]) ends.  [Pending] is the
    model's: the scripted cycles ran out while the loop was running. *)
Inductive ending : Type :=
| Returned
| Raised (e : exc)
| Pending.

(** ** SynapseWatcher *)

Module SynapseWatcher.

(** The fields of the instance.  [poll_interval] is counted in clock
    ticks; [synapse_path] is the directory the listings are taken from. *)
Record t : Type := mk {
  poll_interval : nat;
  message_filter : option MessageFilter.t;
  callbacks : list Callback;
  seen_messages : gset string;
  running : bool
}.

Definition set_seen_messages (self : t) (seen : gset string) : t :=
  {| poll_interval := poll_interval self;
     message_filter := message_filter self;
     callbacks := callbacks self;
     seen_messages := seen;
     running := running self |}.

Definition set_running (self : t) (b : bool) : t :=
  {| poll_interval := poll_interval self;
     message_filter := message_filter self;
     callbacks := callbacks self;
     seen_messages := seen_messages self;
     running := b |}.

(** [SynapseWatcher.__init__], the path having passed both checks. *)
Definition __init__ (poll_interval : nat) (message_filter : option MessageFilter.t) : t :=
  {| poll_interval := poll_interval;
     message_filter := message_filter;
     callbacks := [];
     seen_messages := ∅;
     running := false |}.

(** [register_callback] *)
Definition register_callback (self : t) (callback : Callback) : t * list event :=
  ({| poll_interval := poll_interval self;
      message_filter := message_filter self;
      callbacks := callbacks self ++ [callback];
      seen_messages := seen_messages self;
      running := running self |},
   [Log INFO (RegisteredCallback (__name__ callback))]).

(** [set_filter] *)
Definition set_filter (self : t) (message_filter : MessageFilter.t) : t * list event :=
  ({| poll_interval := poll_interval self;
      message_filter := Some message_filter;
      callbacks := callbacks self;
      seen_messages := seen_messages self;
      running := running self |},
   [Log INFO FilterSet]).

(** The body of the [for] loop of [_detect_new_messages], on the pair
    of [new_messages] and [self.seen_messages]. *)
Definition detect_step (acc : list Path * gset string) (filepath : Path)
    : list Path * gset string :=
  let msg_id := stem filepath in
  if decide (msg_id ∈ acc.2) then acc
  else (acc.1 ++ [filepath], {[msg_id]} ∪ acc.2).

(** [_detect_new_messages].  An [Exception] raised by the iteration is
    logged and what was collected is returned; the entries seen before
    it stay in the seen-set. *)
Definition _detect_new_messages (self : t) (dir : Listing)
    : t * list event * result (list Path) :=
  let acc := fold_left detect_step (entries dir) ([], seen_messages self) in
  let self' := set_seen_messages self acc.2 in
  match failure dir with
  | None => (self', [], Ok acc.1)
  | Some e =>
      if is_Exception e then (self', [Log ERROR (ErrorDetecting e)], Ok acc.1)
      else (self', [], Raise e)
  end.

(** The [for callback in self.callbacks] loop of [_process_message]:
    the events, and the exception that leaves the loop, if any. *)
Fixpoint run_callbacks (cbs : list Callback) (message : SynapseMessage.t)
    : list event * option exc :=
  match cbs with
  | [] => ([], None)
  | callback :: rest =>
      match call callback message with
      | None =>
          let '(evs, r) := run_callbacks rest message in
          (Call (__name__ callback) message :: evs, r)
      | Some e =>
          if is_Exception e then
            let '(evs, r) := run_callbacks rest message in
            (Call (__name__ callback) message
               :: Log ERROR (CallbackError (__name__ callback) e) :: evs, r)
          else ([Call (__name__ callback) message], Some e)
      end
  end.

(** The two [except] clauses that close [_process_message]. *)
Definition process_except (filepath : Path) (e : exc) : list event * option exc :=
  if is_JSONDecodeError e then ([Log ERROR (InvalidJSON (name filepath) e)], None)
  else if is_Exception e then ([Log ERROR (ErrorProcessing (name filepath) e)], None)
  else ([], Some e).

(** Logging the message and running the callbacks. *)
Definition dispatch (self : t) (message : SynapseMessage.t) : list event * option exc :=
  let '(evs, r) := run_callbacks (callbacks self) message in
  (Log INFO (NewMessage (SynapseMessage.msg_id message)
                        (SynapseMessage.from_agent message)
                        (SynapseMessage.subject message)) :: evs, r).

(** [_process_message] *)
Definition _process_message `{PyRuntime} (self : t) (fs : FileSystem) (filepath : Path)
    : list event * option exc :=
  let '(evs, r) :=
    match SynapseMessage.from_file fs filepath with
    | Raise e => process_except filepath e
    | Ok message =>
        match message_filter self with
        | Some flt =>
            match MessageFilter.matches flt message with
            | Raise e => process_except filepath e
            | Ok false => ([Log DEBUG (FilteredOut (SynapseMessage.msg_id message))], None)
            | Ok true => dispatch self message
            end
        | None => dispatch self message
        end
    end in
  (Open filepath :: evs, r).

(** [for filepath in new_messages: self._process_message(filepath)] *)
Fixpoint process_all `{PyRuntime} (self : t) (fs : FileSystem) (new_messages : list Path)
    : list event * option exc :=
  match new_messages with
  | [] => ([], None)
  | filepath :: rest =>
      match _process_message self fs filepath with
      | (evs, Some e) => (evs, Some e)
      | (evs, None) =>
          let '(evs', r) := process_all self fs rest in
          (evs ++ evs', r)
      end
  end.

(** The [try] block of the loop: detect, process, sleep. *)
Definition poll `{PyRuntime} (self : t) (c : Cycle) : t * list event * option exc :=
  match _detect_new_messages self (listing c) with
  | (self', evs, Raise e) => (self', evs, Some e)
  | (self', evs, Ok new_messages) =>
      match process_all self' (files c) new_messages with
      | (evs', Some e) => (self', evs ++ evs', Some e)
      | (evs', None) => (self', evs ++ evs' ++ [Sleep (poll_interval self')], None)
      end
  end.

(** [stop] *)
Definition stop (self : t) : t * list event :=
  (set_running self false, [Log INFO StopRequested]).

(** [stop] called from another thread while the iteration runs: the
    loop reads the flag only when the iteration is over. *)
Definition other_thread (c : Cycle) (self : t) : t * list event :=
  if stop_called c then stop self else (self, []).

(** The [while self.running] loop, one scripted cycle per iteration. *)
Fixpoint watch_cycles `{PyRuntime} (self : t) (cycles : list Cycle)
    : t * list event * ending :=
  if negb (running self) then (self, [], Returned)
  else
    match cycles with
    | [] => (self, [], Pending)
    | c :: rest =>
        match poll self c with
        | (self1, evs, None) =>
            let '(self2, evs2) := other_thread c self1 in
            let '(self3, evs3, r) := watch_cycles self2 rest in
            (self3, evs ++ evs2 ++ evs3, r)
        | (self1, evs, Some e) =>
            if is_KeyboardInterrupt e then
              (self1, evs ++ [Log INFO KeyboardInterruptReceived], Returned)
            else if is_Exception e then
              let '(self2, evs2) := other_thread c self1 in
              let '(self3, evs3, r) := watch_cycles self2 rest in
              (self3,
               evs ++ [Log ERROR (ErrorInWatchLoop e); Sleep (poll_interval self1)]
                   ++ evs2 ++ evs3, r)
            else (self1, evs, Raised e)
        end
    end.

(** The initial scan: [self.seen_messages.add(filepath.stem)] *)
Definition mark_seen (seen : gset string) (filepath : Path) : gset string :=
  {[stem filepath]} ∪ seen.

(** [_watch_loop]: three log lines, the initial scan (outside any
    [try]), then the loop. *)
Definition _watch_loop `{PyRuntime} (self : t) (start_dir : Listing) (cycles : list Cycle)
    : t * list event * ending :=
  let header := [Log INFO Watching;
                 Log INFO (PollInterval (poll_interval self));
                 Log INFO (CallbacksRegistered (length (callbacks self)))] in
  let self1 := set_seen_messages self
                 (fold_left mark_seen (entries start_dir) (seen_messages self)) in
  match failure start_dir with
  | Some e => (self1, header, Raised e)
  | None =>
      let '(self2, evs, r) := watch_cycles self1 cycles in
      (self2,
       header ++ [Log INFO (MarkedExisting (size (seen_messages self1)))] ++ evs,
       r)
  end.

(** [start] *)
Definition start `{PyRuntime} (self : t) (start_dir : Listing) (cycles : list Cycle)
    : t * list event * ending :=
  if running self then (self, [Log WARNING AlreadyRunning], Returned)
  else
    let warn := match callbacks self with
                | [] => [Log WARNING NoCallbacks]
                | _ :: _ => []
                end in
    let '(self1, evs, r) := _watch_loop (set_running self true) start_dir cycles in
    (set_running self1 false,
     warn ++ [Log INFO Started] ++ evs ++ [Log INFO Stopped],
     r).

End SynapseWatcher.

(** ** The loop against a clock *)

(** The big-step loop above hides where time passes.  Here the loop's
    thread is a small machine and [stop] from another thread is an
    action of its own, so that the two can be interleaved. *)
Module Timed.

Import SynapseWatcher.

(** Where the loop's thread is: about to test [while self.running],
    inside [time.sleep] with some ticks to go, or out of the loop. *)
Inductive phase : Type :=
| AtWhile
| InSleep (ticks_left : nat)
| Done (r : ending).

Record thread : Type := mkThread {
  self : SynapseWatcher.t;
  at_phase : phase
}.

(** [Run c]: the loop's thread goes on, up to its next [time.sleep] or
    its exit, seeing the directory of [c].  [Tick]: one clock tick
    passes.  [StopCall]: another thread runs [stop]; the [stop_called]
    mark of a cycle is not read here. *)
Inductive action : Type :=
| Run (c : Cycle)
| Tick
| StopCall.

(** [time.sleep(n)] returns at once for [n = 0]. *)
Definition sleep (n : nat) : phase :=
  match n with
  | 0 => AtWhile
  | S _ => InSleep n
  end.

Definition step `{PyRuntime} (a : action) (th : thread) : thread * list event :=
  match a, at_phase th with
  | Run c, AtWhile =>
      if negb (running (self th)) then (mkThread (self th) (Done Returned), [])
      else
        match poll (self th) c with
        | (self1, evs, None) => (mkThread self1 (sleep (poll_interval self1)), evs)
        | (self1, evs, Some e) =>
            if is_KeyboardInterrupt e then
              (mkThread self1 (Done Returned), evs ++ [Log INFO KeyboardInterruptReceived])
            else if is_Exception e then
              (mkThread self1 (sleep (poll_interval self1)),
               evs ++ [Log ERROR (ErrorInWatchLoop e); Sleep (poll_interval self1)])
            else (mkThread self1 (Done (Raised e)), evs)
        end
  | Tick, InSleep n => (mkThread (self th) (sleep (pred n)), [])
  | StopCall, _ =>
      let '(self1, evs) := stop (self th) in (mkThread self1 (at_phase th), evs)
  | _, _ => (th, [])
  end.

Fixpoint steps `{PyRuntime} (acts : list action) (th : thread) : thread * list event :=
  match acts with
  | [] => (th, [])
  | a :: rest =>
      let '(th1, evs) := step a th in
      let '(th2, evs') := steps rest th1 in
      (th2, evs ++ evs')
  end.

End Timed.

(** ** The command line *)

Module Main.

(** [s.split(sep)] for a one-character separator: a piece for every
    stretch between separators, empty stretches included. *)
Fixpoint split (sep : ascii) (s : string) : list string :=
  match s with
  | EmptyString => [EmptyString]
  | String c rest =>
      if Ascii.eqb c sep then EmptyString :: split sep rest
      else match split sep rest with
           | piece :: pieces => String c piece :: pieces
           | [] => [String c EmptyString]
           end
  end.

(** The block of [main] under [# Build filter], on the values of
    [--to], [--from], [--priority] and [--keywords]. *)
Definition build_filter (to from_agent priority keywords : option string)
    : option MessageFilter.t :=
  if MessageFilter.truthy to || MessageFilter.truthy from_agent
     || MessageFilter.truthy priority || MessageFilter.truthy keywords
  then
    let keywords :=
      match keywords with
      | Some s => if MessageFilter.truthy (Some s) then Some (split ","%char s) else None
      | None => None
      end in
    Some (MessageFilter.__init__ to from_agent priority keywords)
  else None.

End Main.

(** ** An instance of the library interface

    Strings of code points below 256, which is what [string] holds. *)
Module Builtins.

Definition quote : ascii := "034"%char.
Definition apostrophe : ascii := "039"%char.
Definition backslash : ascii := "092"%char.

Definition hex_digit (n : nat) : ascii :=
  match String.get n "0123456789abcdef" with
  | Some c => c
  | None => "0"%char
  end.

Definition hex2 (n : nat) : string :=
  String (hex_digit (n / 16)) (String (hex_digit (n mod 16)) EmptyString).

(** [str.lower] on one character: A-Z, and the capital letters of
    Latin-1 (0xC0-0xDE but the multiplication sign). *)
Definition lower_char (c : ascii) : ascii :=
  let n := nat_of_ascii c in
  if (Nat.leb 65 n && Nat.leb n 90)
     || (Nat.leb 192 n && Nat.leb n 222 && negb (Nat.eqb n 215))
  then ascii_of_nat (n + 32)
  else c.

Fixpoint lower (s : string) : string :=
  match s with
  | EmptyString => EmptyString
  | String c rest => String (lower_char c) (lower rest)
  end.

Fixpoint contains_char (c : ascii) (s : string) : bool :=
  match s with
  | EmptyString => false
  | String d rest => Ascii.eqb c d || contains_char c rest
  end.

Definition str1 (c : ascii) : string := String c EmptyString.

(** One character inside a JSON string, [ensure_ascii] being on. *)
Definition json_escape_char (c : ascii) : string :=
  let n := nat_of_ascii c in
  if Ascii.eqb c quote then String backslash (str1 quote)
  else if Ascii.eqb c backslash then String backslash (str1 backslash)
  else if Nat.eqb n 8 then String backslash "b"
  else if Nat.eqb n 12 then String backslash "f"
  else if Nat.eqb n 10 then String backslash "n"
  else if Nat.eqb n 13 then String backslash "r"
  else if Nat.eqb n 9 then String backslash "t"
  else if Nat.leb 32 n && Nat.leb n 126 then str1 c
  else String backslash ("u00" +:+ hex2 n).

Fixpoint json_escape (s : string) : string :=
  match s with
  | EmptyString => EmptyString
  | String c rest => json_escape_char c +:+ json_escape rest
  end.

Definition json_string (s : string) : string :=
  String quote (json_escape s +:+ str1 quote).

(** [json.dumps] with its default separators. *)
Fixpoint dumps (v : pyval) : string :=
  match v with
  | PyNone => "null"
  | PyBool true => "true"
  | PyBool false => "false"
  | PyInt z => pretty z
  | PyFloat r => r
  | PyStr s => json_string s
  | PyList l => "[" +:+ String.concat ", " (map dumps l) +:+ "]"
  | PyDict d =>
      "{" +:+ String.concat ", "
               (map (fun kv => json_string (fst kv) +:+ ": " +:+ dumps (snd kv)) d)
          +:+ "}"
  end.

(** One character inside the [repr] of a [str] quoted by [q]. *)
Definition repr_char (q c : ascii) : string :=
  let n := nat_of_ascii c in
  if Ascii.eqb c q || Ascii.eqb c backslash then String backslash (str1 c)
  else if Nat.eqb n 9 then String backslash "t"
  else if Nat.eqb n 10 then String backslash "n"
  else if Nat.eqb n 13 then String backslash "r"
  else if Nat.ltb n 32 || (Nat.leb 127 n && Nat.leb n 160) || Nat.eqb n 173
       then String backslash ("x" +:+ hex2 n)
  else str1 c.

Fixpoint repr_chars (q : ascii) (s : string) : string :=
  match s with
  | EmptyString => EmptyString
  | String c rest => repr_char q c +:+ repr_chars q rest
  end.

(** [repr] of a [str]: double quotes only when the text has an
    apostrophe and no double quote. *)
Definition repr_str (s : string) : string :=
  let q := if contains_char apostrophe s && negb (contains_char quote s)
           then quote else apostrophe in
  String q (repr_chars q s +:+ str1 q).

Fixpoint repr (v : pyval) : string :=
  match v with
  | PyNone => "None"
  | PyBool true => "True"
  | PyBool false => "False"
  | PyInt z => pretty z
  | PyFloat r => r
  | PyStr s => repr_str s
  | PyList l => "[" +:+ String.concat ", " (map repr l) +:+ "]"
  | PyDict d =>
      "{" +:+ String.concat ", "
               (map (fun kv => repr_str (fst kv) +:+ ": " +:+ repr (snd kv)) d)
          +:+ "}"
  end.

(** [str(v)]: a [str] is itself, anything else prints as its [repr]. *)
Definition str (v : pyval) : string :=
  match v with
  | PyStr s => s
  | _ => repr v
  end.

#[global] Instance runtime : PyRuntime :=
  {| str_lower := lower; json_dumps := dumps; py_str := str |}.

End Builtins.

(** ** A scenario to run the model on

    The inbox of the test suite: one file present before [start], then a
    file that is not JSON and a valid message; a callback that raises and
    one that does not. *)
Module Scenario.

Definition old_file : Path := mkPath "dedup_test_001.json".
Definition bad_file : Path := mkPath "broken.json".
Definition new_file : Path := mkPath "m1.json".

Definition decode_error : exc := mkExc JSONDecodeError "Expecting value".

Definition payload : pyval :=
  PyDict [("msg_id", PyStr "m1"); ("from", PyStr "A"); ("to", PyList [PyStr "B"]);
          ("priority", PyStr "HIGH"); ("subject", PyStr "hi")].

Definition inbox : FileSystem :=
  fun p =>
    if String.eqb (name p) "m1.json" then Ok payload
    else if String.eqb (name p) "broken.json" then Raise decode_error
    else if String.eqb (name p) "dedup_test_001.json"
         then Ok (PyDict [("msg_id", PyStr "dedup_test_001")])
    else Raise (mkExc OSError "No such file or directory").

Definition message : SynapseMessage.t :=
  {| SynapseMessage.msg_id := PyStr "m1";
     SynapseMessage.from_agent := PyStr "A";
     SynapseMessage.to := PyList [PyStr "B"];
     SynapseMessage.subject := PyStr "hi";
     SynapseMessage.body := PyDict [];
     SynapseMessage.priority := PyStr "HIGH";
     SynapseMessage.timestamp := PyStr "";
     SynapseMessage.filepath := new_file |}.

Definition crashing_callback : Callback :=
  mkCallback "crashing_callback" (fun _ => Some (mkExc ValueError "Intentional crash!")).

Definition normal_callback : Callback :=
  mkCallback "normal_callback" (fun _ => None).


(** A watcher polling every five ticks, both callbacks registered. *)
Definition idle : SynapseWatcher.t :=
  (SynapseWatcher.register_callback
     (SynapseWatcher.register_callback (SynapseWatcher.__init__ 5 None)
        crashing_callback).1
     normal_callback).1.

Definition watching : SynapseWatcher.t := SynapseWatcher.set_running idle true.


Definition at_start : Listing := mkListing [old_file] None.

Definition first_cycle : Cycle :=
  mkCycle (mkListing [bad_file] None) inbox false.

Definition second_cycle : Cycle :=
  mkCycle (mkListing [bad_file; new_file] None) inbox false.

Definition busy_cycle : Cycle :=
  mkCycle (mkListing [old_file; new_file] None) inbox false.

End Scenario.

(** ** Vocabulary of the statements *)


(** The files a trace opened, in order. *)
Fixpoint opened (evs : list event) : list Path :=
  match evs with
  | [] => []
  | Open p :: rest => p :: opened rest
  | _ :: rest => opened rest
  end.

(** The callback invocations of a trace, in order. *)
Fixpoint calls (evs : list event) : list (string * SynapseMessage.t) :=
  match evs with
  | [] => []
  | Call cb m :: rest => (cb, m) :: calls rest
  | _ :: rest => calls rest
  end.

(** The identities of a list of files. *)
Definition stems (l : list Path) : gset string := list_to_set (stem <$> l).

(** The batch one dispatch owes: every callback once, in list order. *)
Definition batch (cbs : list Callback) (m : SynapseMessage.t)
    : list (string * SynapseMessage.t) :=
  map (fun cb => (__name__ cb, m)) cbs.

(** The invocations of a trace whose message was read from [p]. *)
Definition calls_from (p : Path) (evs : list event) : list (string * SynapseMessage.t) :=
  filter (fun x => SynapseMessage.filepath x.2 = p) (calls evs).

(** The filter of the watcher, if any, lets the message through. *)
Definition filter_passes `{PyRuntime} (self : SynapseWatcher.t) (m : SynapseMessage.t) : Prop :=
  match SynapseWatcher.message_filter self with
  | Some flt => MessageFilter.matches flt m = Ok true
  | None => True
  end.


(** Taken over a whole trace, the invocations made for any one file
    are the beginning of a single batch. *)
Definition one_batch (cbs : list Callback) (evs : list event) : Prop :=
  forall p, exists m, calls_from p evs `prefix_of` batch cbs m.

(** A sleeping thread has at least one tick to go and at most a whole
    interval. *)
Definition sleep_bounded (th : Timed.thread) : Prop :=
  match Timed.at_phase th with
  | Timed.InSleep n => 1 <= n <= SynapseWatcher.poll_interval (Timed.self th)
  | _ => True
  end.

(** Callbacks registered one after the other. *)
Definition register_all (self : SynapseWatcher.t) (cbs : list Callback) : SynapseWatcher.t :=
  fold_left (fun w cb => (SynapseWatcher.register_callback w cb).1) cbs self.



(** The stems listed by the cycles of a script. *)
Definition listed (cycles : list Cycle) : gset string :=
  ⋃ ((fun c => stems (entries (listing c))) <$> cycles).

(** ** More cases to run the model on *)
Module Cases.

Import Scenario.

(** A payload that is valid JSON and no object. *)
Definition list_file : Path := mkPath "list.json".

(** A message whose subject is a number. *)
Definition odd_file : Path := mkPath "odd.json".

Definition odd_message : SynapseMessage.t :=
  {| SynapseMessage.msg_id := PyStr "odd";
     SynapseMessage.from_agent := PyStr "UNKNOWN";
     SynapseMessage.to := PyList [];
     SynapseMessage.subject := PyInt 5;
     SynapseMessage.body := PyDict [];
     SynapseMessage.priority := PyStr "NORMAL";
     SynapseMessage.timestamp := PyStr "";
     SynapseMessage.filepath := odd_file |}.

Definition disk : FileSystem :=
  fun p =>
    if String.eqb (name p) "list.json" then Ok (PyList [PyStr "m1"])
    else if String.eqb (name p) "odd.json"
         then Ok (PyDict [("msg_id", PyStr "odd"); ("subject", PyInt 5)])
    else inbox p.


(** Running watchers: one with no callback, one whose first callback is
    interrupted, one that lets critical messages through only, one that
    looks for a keyword. *)
Definition bare : SynapseWatcher.t :=
  SynapseWatcher.set_running (SynapseWatcher.__init__ 5 None) true.


Definition critical_only : MessageFilter.t :=
  MessageFilter.__init__ None None (Some "CRITICAL") None.

Definition picky : SynapseWatcher.t :=
  SynapseWatcher.set_running
    (SynapseWatcher.set_filter idle critical_only).1 true.

Definition keyword_filter : MessageFilter.t :=
  MessageFilter.__init__ None None None (Some ["urgent"]).

Definition searching : SynapseWatcher.t :=
  SynapseWatcher.set_running
    (SynapseWatcher.set_filter idle keyword_filter).1 true.

Definition one_new_file : Cycle := mkCycle (mkListing [new_file] None) inbox false.

Definition last_cycle : Cycle := mkCycle (mkListing [new_file] None) inbox true.

Definition denied : exc := mkExc OSError "Permission denied".

(** A listing that yields one file and then fails. *)
Definition broken_listing : Listing := mkListing [new_file] (Some denied).

End Cases.

(** Splits a goal made of conjunctions, and nothing else. *)
Ltac conjs := repeat match goal with |- _ /\ _ => split end.

(** * Properties *)

(** ** Strings *)




Lemma truthy_Some (s : string) :
  MessageFilter.truthy (Some s) = true <-> s <> "".
Proof.
  simpl. destruct (String.eqb_spec s ""); simpl; split; congruence.
Qed.

(** ** Paths *)

Lemma rfind_dot_json (a : string) : rfind_dot (a +:+ ".json") = Some (String.length a).
Proof.
  induction a as [|c a IH]; [reflexivity |].
  change (rfind_dot (String c (a +:+ ".json")) = Some (S (String.length a))).
  cbn [rfind_dot]. now rewrite IH.
Qed.

Lemma str_take_app (a b : string) : str_take (String.length a) (a +:+ b) = a.
Proof.
  induction a as [|c a IH]; [now destruct b |].
  change (str_take (S (String.length a)) (String c (a +:+ b)) = String c a).
  cbn [str_take]. now rewrite IH.
Qed.

Lemma length_app_json (a : string) :
  String.length (a +:+ ".json") = String.length a + 5.
Proof.
  induction a as [|c a IH]; [reflexivity |].
  change (S (String.length (a +:+ ".json")) = S (String.length a) + 5). lia.
Qed.

(** The stem of what [glob("*.json")] yields: the name without its
    [.json], unless there is nothing before it. *)
Lemma stem_json (a : string) :
  a <> "" -> stem (mkPath (a +:+ ".json")) = a.
Proof.
  intros Ha. unfold stem. cbn [name]. rewrite rfind_dot_json, length_app_json.
  destruct a as [|c a]; [done |]. cbn [String.length].
  replace (Nat.ltb 0 (S (String.length a))) with true by reflexivity.
  replace (Nat.ltb (S (String.length a)) (S (String.length a) + 5 - 1)) with true
    by (symmetry; apply Nat.ltb_lt; lia).
  cbn [andb]. apply (str_take_app (String c a)).
Qed.

(** So two such files with one stem are one file. *)
Lemma stem_json_inj (a b : string) :
  a <> "" -> b <> "" ->
  stem (mkPath (a +:+ ".json")) = stem (mkPath (b +:+ ".json")) ->
  mkPath (a +:+ ".json") = mkPath (b +:+ ".json").
Proof. intros Ha Hb. rewrite !stem_json by assumption. now intros ->. Qed.

(** The file called [.json] is the exception: it has no suffix, and
    shares its stem with [.json.json]. *)
Example stem_dot_json :
  stem (mkPath ".json") = ".json" /\ stem (mkPath ".json.json") = ".json".
Proof. split; reflexivity. Qed.

(** ** Message model *)

Lemma dict_get_absent (d : list (string * pyval)) (key : string) (default : pyval) :
  dict_has d key = false -> dict_get d key default = default.
Proof.
  unfold dict_has. induction d as [|[k v] d IH]; simpl; [reflexivity |].
  destruct (String.eqb k key); simpl; [discriminate | exact IH].
Qed.

Lemma dict_get_present (d : list (string * pyval)) (key : string) (default other : pyval) :
  dict_has d key = true -> dict_get d key default = dict_get d key other.
Proof.
  unfold dict_has. induction d as [|[k v] d IH]; simpl; [discriminate |].
  destruct (String.eqb k key); simpl; [reflexivity | exact IH].
Qed.

(** C4, as written, at a payload with neither identity key: the
    message of [m1.json] holding an empty object is identified as
    ["unknown"], not by its file name nor by its stem. *)
Lemma C4_identity_not_from_filename :
  let fs : FileSystem := fun _ => Ok (PyDict []) in
  exists m, SynapseMessage.from_file fs (mkPath "m1.json") = Ok m
    /\ SynapseMessage.msg_id m = PyStr "unknown"
    /\ stem (mkPath "m1.json") = "m1"
    /\ SynapseMessage.msg_id m <> PyStr (stem (mkPath "m1.json"))
    /\ SynapseMessage.msg_id m <> PyStr (name (mkPath "m1.json")).
Proof.
  eexists. split; [reflexivity |]. cbn. repeat split; discriminate.
Qed.

(** C4, amended: when the payload is an object with neither [msg_id] nor
    [message_id], the identity of the parsed message is the literal
    ["unknown"], whatever the file is called; the file is kept in the
    [filepath] field only. *)
Theorem C4_identity_falls_back_to_unknown
    (fs : FileSystem) (filepath : Path) (data : list (string * pyval)) :
  fs filepath = Ok (PyDict data) ->
  dict_has data "msg_id" = false ->
  dict_has data "message_id" = false ->
  exists m, SynapseMessage.from_file fs filepath = Ok m
    /\ SynapseMessage.msg_id m = PyStr "unknown"
    /\ SynapseMessage.filepath m = filepath.
Proof.
  intros Hfs Hid Halias. unfold SynapseMessage.from_file. rewrite Hfs.
  eexists. split; [reflexivity |]. cbn.
  now rewrite !dict_get_absent.
Qed.

Lemma C4_identity_falls_back_to_unknown_witness :
  exists m,
    SynapseMessage.from_file (fun _ => Ok (PyDict [("subject", PyStr "hi")]))
                             (mkPath "note.json") = Ok m
    /\ SynapseMessage.msg_id m = PyStr "unknown"
    /\ SynapseMessage.filepath m = mkPath "note.json".
Proof.
  apply (C4_identity_falls_back_to_unknown
           (fun _ => Ok (PyDict [("subject", PyStr "hi")]))
           (mkPath "note.json") [("subject", PyStr "hi")]); reflexivity.
Defined.

(** C5: parsing an object succeeds; the identity is the value of
    [msg_id], else of [message_id], else ["unknown"]; the sender is the
    value of [from], else of [from_agent], else ["UNKNOWN"]; and a payload
    holding an identity field only gives [[]], [""], [{}], ["NORMAL"] and
    [""] for recipients, subject, body, priority and timestamp. *)
Theorem C5_minimal_payload_defaults
    (fs : FileSystem) (filepath : Path) (data : list (string * pyval)) :
  fs filepath = Ok (PyDict data) ->
  exists m, SynapseMessage.from_file fs filepath = Ok m
    /\ (dict_has data "msg_id" = true ->
        SynapseMessage.msg_id m = dict_get data "msg_id" PyNone)
    /\ (dict_has data "msg_id" = false -> dict_has data "message_id" = true ->
        SynapseMessage.msg_id m = dict_get data "message_id" PyNone)
    /\ (dict_has data "msg_id" = false -> dict_has data "message_id" = false ->
        SynapseMessage.msg_id m = PyStr "unknown")
    /\ (dict_has data "from" = true ->
        SynapseMessage.from_agent m = dict_get data "from" PyNone)
    /\ (dict_has data "from" = false -> dict_has data "from_agent" = true ->
        SynapseMessage.from_agent m = dict_get data "from_agent" PyNone)
    /\ (dict_has data "from" = false -> dict_has data "from_agent" = false ->
        SynapseMessage.from_agent m = PyStr "UNKNOWN")
    /\ (forall key v, data = [(key, v)] -> key = "msg_id" \/ key = "message_id" ->
        m = {| SynapseMessage.msg_id := v;
               SynapseMessage.from_agent := PyStr "UNKNOWN";
               SynapseMessage.to := PyList [];
               SynapseMessage.subject := PyStr "";
               SynapseMessage.body := PyDict [];
               SynapseMessage.priority := PyStr "NORMAL";
               SynapseMessage.timestamp := PyStr "";
               SynapseMessage.filepath := filepath |}).
Proof.
  intros Hfs. unfold SynapseMessage.from_file. rewrite Hfs.
  eexists. split; [reflexivity |]. cbn.
  repeat split.
  - intros Hid. now apply dict_get_present.
  - intros Hid Halias. rewrite (dict_get_absent _ "msg_id") by exact Hid.
    now apply dict_get_present.
  - intros Hid Halias. now rewrite !dict_get_absent.
  - intros Hfrom. now apply dict_get_present.
  - intros Hfrom Halias. rewrite (dict_get_absent _ "from") by exact Hfrom.
    now apply dict_get_present.
  - intros Hfrom Halias. now rewrite !dict_get_absent.
  - intros key v -> [-> | ->]; reflexivity.
Qed.

Lemma C5_minimal_payload_defaults_witness :
  exists m,
    SynapseMessage.from_file (fun _ => Ok (PyDict [("msg_id", PyStr "m1")]))
                             (mkPath "m1.json") = Ok m
    /\ m = {| SynapseMessage.msg_id := PyStr "m1";
              SynapseMessage.from_agent := PyStr "UNKNOWN";
              SynapseMessage.to := PyList [];
              SynapseMessage.subject := PyStr "";
              SynapseMessage.body := PyDict [];
              SynapseMessage.priority := PyStr "NORMAL";
              SynapseMessage.timestamp := PyStr "";
              SynapseMessage.filepath := mkPath "m1.json" |}.
Proof.
  destruct (C5_minimal_payload_defaults
              (fun _ => Ok (PyDict [("msg_id", PyStr "m1")]))
              (mkPath "m1.json") [("msg_id", PyStr "m1")] eq_refl)
    as (m & Hm & _ & _ & _ & _ & _ & _ & Honly).
  exists m. split; [exact Hm |].
  apply (Honly "msg_id" (PyStr "m1") eq_refl). left. reflexivity.
Defined.

(** ** Filter predicate *)

Section Filter.
Context `{PyRuntime}.

(** [matches] returns [True] exactly when none of the four blocks
    returns [False]; the keyword block counts only when keywords are set. *)
Lemma matches_true (flt : MessageFilter.t) (message : SynapseMessage.t) :
  MessageFilter.matches flt message = Ok true <->
    MessageFilter.to_agent_fails flt message = false
    /\ MessageFilter.from_agent_fails flt message = false
    /\ MessageFilter.priority_fails flt message = false
    /\ (MessageFilter.keywords flt = []
        \/ MessageFilter.keywords_pass flt message = Ok true).
Proof.
  unfold MessageFilter.matches.
  destruct (MessageFilter.to_agent_fails flt message);
    [split; [discriminate | intros (? & _); discriminate] |].
  destruct (MessageFilter.from_agent_fails flt message);
    [split; [discriminate | intros (_ & ? & _); discriminate] |].
  destruct (MessageFilter.priority_fails flt message);
    [split; [discriminate | intros (_ & _ & ? & _); discriminate] |].
  destruct (MessageFilter.keywords flt) as [|kw kws] eqn:Hkws.
  - split; [intros _; repeat split; now left | reflexivity].
  - destruct (MessageFilter.keywords_pass flt message) as [[|]|e]; simpl.
    + split; [intros _; repeat split; now right | reflexivity].
    + split; [discriminate | intros (_ & _ & _ & [? | ?]); discriminate].
    + split; [discriminate | intros (_ & _ & _ & [? | ?]); discriminate].
Qed.




End Filter.




(** ** Detection *)

Import SynapseWatcher.

Lemma stems_cons (p : Path) (l : list Path) : stems (p :: l) = {[stem p]} ∪ stems l.
Proof. reflexivity. Qed.

Lemma elem_of_stems (s : string) (l : list Path) :
  s ∈ stems l <-> exists p, p ∈ l /\ stem p = s.
Proof.
  unfold stems. rewrite elem_of_list_to_set, list_elem_of_fmap. naive_solver.
Qed.


Lemma detect_step_new (acc : list Path * gset string) (p : Path) :
  stem p ∉ acc.2 -> detect_step acc p = (acc.1 ++ [p], {[stem p]} ∪ acc.2).
Proof. intros Hnew. unfold detect_step. now rewrite decide_False. Qed.

(** What the [for] loop of [_detect_new_messages] leaves in its two
    variables: the files appended are the first sighting of each stem
    not seen before, and every stem listed is seen afterwards. *)
Lemma detect_loop (dir : list Path) (new : list Path) (seen : gset string) :
  exists added,
    fold_left detect_step dir (new, seen) = (new ++ added, seen ∪ stems dir)
    /\ NoDup (stem <$> added)
    /\ (forall p, p ∈ added -> p ∈ dir /\ stem p ∉ seen)
    /\ (forall p, p ∈ dir -> stem p ∉ seen ->
        exists q, q ∈ added /\ stem q = stem p).
Proof.
  revert new seen. induction dir as [|p dir IH]; intros new seen.
  - exists []. cbn. rewrite app_nil_r. unfold stems. cbn.
    split; [f_equal; set_solver |]. split; [constructor |]. set_solver.
  - cbn [fold_left]. unfold detect_step at 2. cbn [fst snd].
    destruct (decide (stem p ∈ seen)) as [Hseen | Hnew].
    + destruct (IH new seen) as (added & Hfold & Hnodup & Hadded & Hall).
      exists added. rewrite Hfold, stems_cons.
      split; [f_equal; set_solver |]. split; [exact Hnodup |]. split.
      * intros q Hq. apply Hadded in Hq. set_solver.
      * intros q [-> | Hq]%elem_of_cons Hq'; [done | by apply Hall].
    + destruct (IH (new ++ [p]) ({[stem p]} ∪ seen))
        as (added & Hfold & Hnodup & Hadded & Hall).
      exists (p :: added). rewrite Hfold, stems_cons, <- app_assoc. cbn [app].
      split; [f_equal; set_solver |]. split; [| split].
      * rewrite fmap_cons. apply NoDup_cons_2; [| exact Hnodup].
        intros (q & Hstem & Hq)%list_elem_of_fmap.
        apply Hadded in Hq as [_ Hq]. set_solver.
      * intros q [-> | Hq]%elem_of_cons; [set_solver |].
        apply Hadded in Hq. set_solver.
      * intros q [-> | Hq]%elem_of_cons Hq'; [exists p; set_solver |].
        destruct (decide (stem q = stem p)) as [Heq | Hne].
        -- exists p. set_solver.
        -- destruct (Hall q Hq) as (q' & Hq'' & Hstem); [set_solver |].
           exists q'. set_solver.
Qed.

(** [_detect_new_messages] as a whole: only the seen-set changes. *)
Lemma detect_spec (self : t) (dir : Listing) :
  exists added,
    (_detect_new_messages self dir).1.1
      = set_seen_messages self (seen_messages self ∪ stems (entries dir))
    /\ (forall l, (_detect_new_messages self dir).2 = Ok l -> l = added)
    /\ (forall e, (_detect_new_messages self dir).2 = Raise e ->
        failure dir = Some e /\ is_Exception e = false)
    /\ opened (_detect_new_messages self dir).1.2 = []
    /\ calls (_detect_new_messages self dir).1.2 = []
    /\ NoDup (stem <$> added)
    /\ (forall p, p ∈ added -> p ∈ entries dir /\ stem p ∉ seen_messages self)
    /\ (forall p, p ∈ entries dir -> stem p ∉ seen_messages self ->
        exists q, q ∈ added /\ stem q = stem p).
Proof.
  destruct (detect_loop (entries dir) [] (seen_messages self))
    as (added & Hfold & Hnodup & Hadded & Hall).
  exists added. unfold _detect_new_messages. rewrite Hfold. cbn [fst snd app].
  destruct (failure dir) as [e|]; [destruct (is_Exception e) eqn:He |]; cbn;
    repeat split; try done; try congruence; by apply Hadded.
Qed.

(** ** Dispatch *)

Lemma opened_app (evs evs' : list event) : opened (evs ++ evs') = opened evs ++ opened evs'.
Proof.
  induction evs as [|[] evs IH]; cbn; [reflexivity | | | |]; now rewrite ?IH.
Qed.

Lemma calls_app (evs evs' : list event) : calls (evs ++ evs') = calls evs ++ calls evs'.
Proof.
  induction evs as [|[] evs IH]; cbn; [reflexivity | | | |]; now rewrite ?IH.
Qed.

Lemma from_file_filepath (fs : FileSystem) (filepath : Path) (m : SynapseMessage.t) :
  SynapseMessage.from_file fs filepath = Ok m -> SynapseMessage.filepath m = filepath.
Proof.
  unfold SynapseMessage.from_file.
  destruct (fs filepath) as [[]|]; try discriminate.
  intros [= <-]. reflexivity.
Qed.

(** The callback loop: every callback up to the first one that raises
    past [Exception] is called, in order, with the same message. *)
Lemma run_callbacks_spec (cbs : list Callback) (m : SynapseMessage.t)
    (evs : list event) (r : option exc) :
  run_callbacks cbs m = (evs, r) ->
  opened evs = []
  /\ calls evs `prefix_of` batch cbs m
  /\ (r = None -> calls evs = batch cbs m)
  /\ (forall e, r = Some e -> is_Exception e = false)
  /\ ((forall cb e, cb ∈ cbs -> call cb m = Some e -> is_Exception e = true) ->
      r = None
      /\ forall cb e, cb ∈ cbs -> call cb m = Some e ->
         Log ERROR (CallbackError (__name__ cb) e) ∈ evs).
Proof.
  revert evs r. induction cbs as [|cb cbs IH]; intros evs r; cbn [run_callbacks].
  - intros [= <- <-]. cbn. repeat split; try done. set_solver.
  - destruct (run_callbacks cbs m) as [evs' r'] eqn:Hrest.
    destruct (IH evs' r' eq_refl) as (Hopen & Hprefix & Hall & Hexc & Hgood).
    destruct (call cb m) as [e|] eqn:Hcall; [destruct (is_Exception e) eqn:He |].
    + intros [= <- <-]. cbn. split; [exact Hopen |].
      split; [by apply prefix_cons |]. split; [intros Hr; f_equal; auto |].
      split; [exact Hexc |].
      intros Hcbs. destruct Hgood as [-> Hlogged]; [intros; apply Hcbs with cb0; set_solver |].
      split; [reflexivity |].
      intros cb' e' [-> | Hin]%elem_of_cons Hcall'.
      * assert (e' = e) as -> by congruence. set_solver.
      * do 2 apply list_elem_of_further. eauto.
    + intros [= <- <-]. cbn. split; [reflexivity |].
      split; [apply prefix_cons, prefix_nil |]. split; [discriminate |].
      split; [intros e' [= <-]; exact He |].
      intros Hcbs. specialize (Hcbs cb e). rewrite Hcbs in He; [discriminate | set_solver | done].
    + intros [= <- <-]. cbn. split; [exact Hopen |].
      split; [by apply prefix_cons |]. split; [intros Hr; f_equal; auto |].
      split; [exact Hexc |].
      intros Hcbs. destruct Hgood as [-> Hlogged]; [intros; apply Hcbs with cb0; set_solver |].
      split; [reflexivity |].
      intros cb' e' [-> | Hin]%elem_of_cons Hcall'; [congruence |].
      apply list_elem_of_further. eauto.
Qed.

Lemma process_except_spec (filepath : Path) (e : exc) (evs : list event) (r : option exc) :
  process_except filepath e = (evs, r) ->
  opened evs = [] /\ calls evs = [] /\ (forall e', r = Some e' -> is_Exception e' = false).
Proof.
  unfold process_except.
  destruct (is_JSONDecodeError e); [| destruct (is_Exception e) eqn:He];
    intros [= <- <-]; cbn; repeat split; congruence.
Qed.

Lemma dispatch_spec (self : t) (m : SynapseMessage.t) (evs : list event) (r : option exc) :
  dispatch self m = (evs, r) ->
  opened evs = []
  /\ (forall x, x ∈ calls evs -> x.2 = m)
  /\ (forall e, r = Some e -> is_Exception e = false).
Proof.
  unfold dispatch. destruct (run_callbacks (callbacks self) m) as [evs' r'] eqn:Hrun.
  apply run_callbacks_spec in Hrun as (Hopen & Hprefix & _ & Hexc & _).
  intros [= <- <-]. cbn. split; [exact Hopen |]. split; [| exact Hexc].
  intros x Hx. destruct Hprefix as [k Hk].
  assert (x ∈ batch (callbacks self) m) as Hin by (rewrite Hk; set_solver).
  unfold batch in Hin. apply list_elem_of_fmap in Hin as (cb & -> & _). reflexivity.
Qed.

Section Dispatch.
Context `{PyRuntime}.

(** One [_process_message]: the file is opened once, and whatever is
    handed to a callback was read from it. *)
Lemma process_message_spec (self : t) (fs : FileSystem) (filepath : Path)
    (evs : list event) (r : option exc) :
  _process_message self fs filepath = (evs, r) ->
  opened evs = [filepath]
  /\ (forall x, x ∈ calls evs -> SynapseMessage.filepath x.2 = filepath)
  /\ (forall e, r = Some e -> is_Exception e = false).
Proof.
  unfold _process_message.
  destruct (SynapseMessage.from_file fs filepath) as [m|e] eqn:Hload.
  - apply from_file_filepath in Hload.
    assert (forall evs' r', dispatch self m = (evs', r') ->
              (Open filepath :: evs', r') = (evs, r) ->
              opened evs = [filepath]
              /\ (forall x, x ∈ calls evs -> SynapseMessage.filepath x.2 = filepath)
              /\ (forall e, r = Some e -> is_Exception e = false)) as Hdispatch.
    { intros evs' r' (Hopen & Hcalls & Hexc)%dispatch_spec [= <- <-]. cbn.
      rewrite Hopen. split; [reflexivity |]. split; [| exact Hexc].
      intros x Hx. now rewrite (Hcalls x Hx). }
    destruct (message_filter self) as [flt|].
    + destruct (MessageFilter.matches flt m) as [[|]|e] eqn:Hmatch.
      * destruct (dispatch self m) as [evs' r'] eqn:Hd. eauto.
      * intros [= <- <-]. cbn. repeat split; [set_solver | discriminate].
      * destruct (process_except filepath e) as [evs' r'] eqn:Hexc.
        apply process_except_spec in Hexc as (Hopen & Hcalls & Hexc).
        intros [= <- <-]. cbn. rewrite Hopen, Hcalls. repeat split; [set_solver | exact Hexc].
    + destruct (dispatch self m) as [evs' r'] eqn:Hd. eauto.
  - destruct (process_except filepath e) as [evs' r'] eqn:Hexc.
    apply process_except_spec in Hexc as (Hopen & Hcalls & Hexc).
    intros [= <- <-]. cbn. rewrite Hopen, Hcalls. repeat split; [set_solver | exact Hexc].
Qed.

(** The queue of one cycle is processed front to back, up to the first
    exception that gets out of [_process_message]. *)
Lemma process_all_spec (self : t) (fs : FileSystem) (new_messages : list Path)
    (evs : list event) (r : option exc) :
  process_all self fs new_messages = (evs, r) ->
  opened evs `prefix_of` new_messages
  /\ (r = None -> opened evs = new_messages)
  /\ (forall x, x ∈ calls evs -> SynapseMessage.filepath x.2 ∈ opened evs)
  /\ (forall e, r = Some e -> is_Exception e = false).
Proof.
  revert evs r. induction new_messages as [|p rest IH]; intros evs r; cbn [process_all].
  - intros [= <- <-]. cbn.
    split; [apply prefix_nil |]. split; [done |]. split; [set_solver | discriminate].
  - destruct (_process_message self fs p) as [evs1 [e|]] eqn:Hone;
      apply process_message_spec in Hone as (Hopen & Hcalls & Hexc).
    + intros [= <- <-]. rewrite Hopen.
      split; [apply prefix_cons, prefix_nil |]. split; [discriminate |].
      split; [| exact Hexc].
      intros x Hx. rewrite (Hcalls x Hx). set_solver.
    + destruct (process_all self fs rest) as [evs2 r2] eqn:Hrest.
      destruct (IH evs2 r2 eq_refl) as (Hprefix & Hall & Hcalls2 & Hexc2).
      intros [= <- <-]. rewrite opened_app, calls_app, Hopen. cbn [app].
      split; [by apply prefix_cons |]. split; [intros Hr; f_equal; auto |].
      split; [| exact Hexc2].
      intros x [Hx | Hx]%elem_of_app.
      * rewrite (Hcalls x Hx). set_solver.
      * apply list_elem_of_further. auto.
Qed.

End Dispatch.

(** ** One batch per file *)

Lemma calls_from_app (p : Path) (evs evs' : list event) :
  calls_from p (evs ++ evs') = calls_from p evs ++ calls_from p evs'.
Proof. unfold calls_from. now rewrite calls_app, filter_app. Qed.

Lemma calls_from_none (p : Path) (evs : list event) :
  (forall x, x ∈ calls evs -> SynapseMessage.filepath x.2 <> p) -> calls_from p evs = [].
Proof.
  unfold calls_from. induction (calls evs) as [|x l IH]; intros Hne; [reflexivity |].
  rewrite filter_cons_False by (apply Hne; set_solver). apply IH. set_solver.
Qed.

Lemma calls_from_all (p : Path) (evs : list event) :
  (forall x, x ∈ calls evs -> SynapseMessage.filepath x.2 = p) -> calls_from p evs = calls evs.
Proof.
  unfold calls_from. induction (calls evs) as [|x l IH]; intros Heq; [reflexivity |].
  rewrite filter_cons_True by (apply Heq; set_solver). f_equal. apply IH. set_solver.
Qed.

Lemma one_batch_quiet (cbs : list Callback) (evs : list event) :
  calls evs = [] -> one_batch cbs evs.
Proof.
  intros Hquiet p. exists (SynapseMessage.mk PyNone PyNone PyNone PyNone PyNone PyNone PyNone p).
  unfold calls_from. rewrite Hquiet. apply prefix_nil.
Qed.

Lemma one_batch_app (cbs : list Callback) (evs evs' : list event) :
  one_batch cbs evs -> one_batch cbs evs' ->
  (forall p, p ∈ opened evs -> p ∉ opened evs') ->
  (forall x, x ∈ calls evs -> SynapseMessage.filepath x.2 ∈ opened evs) ->
  (forall x, x ∈ calls evs' -> SynapseMessage.filepath x.2 ∈ opened evs') ->
  one_batch cbs (evs ++ evs').
Proof.
  intros Hone Hone' Hdisjoint Hcalls Hcalls' p. rewrite calls_from_app.
  destruct (decide (p ∈ opened evs)) as [Hin | Hout].
  - rewrite (calls_from_none p evs'), app_nil_r; [apply Hone |].
    intros x Hx <-. apply (Hdisjoint _ Hin). auto.
  - rewrite (calls_from_none p evs); [apply Hone' |].
    intros x Hx <-. auto.
Qed.

Section Batches.
Context `{PyRuntime}.

Lemma process_message_batch (self : t) (fs : FileSystem) (filepath : Path)
    (evs : list event) (r : option exc) :
  _process_message self fs filepath = (evs, r) -> one_batch (callbacks self) evs.
Proof.
  intros Hproc.
  assert (exists m, calls evs `prefix_of` batch (callbacks self) m) as [m Hprefix].
  { revert Hproc. unfold _process_message.
    assert (forall e evs' r', process_except filepath e = (evs', r') ->
              (Open filepath :: evs', r') = (evs, r) ->
              exists m, calls evs `prefix_of` batch (callbacks self) m) as Hexcept.
    { intros e evs' r' (_ & Hquiet & _)%process_except_spec [= <- <-]. cbn.
      rewrite Hquiet. exists (SynapseMessage.mk PyNone PyNone PyNone PyNone PyNone PyNone PyNone filepath).
      apply prefix_nil. }
    assert (forall m evs' r', dispatch self m = (evs', r') ->
              (Open filepath :: evs', r') = (evs, r) ->
              exists m, calls evs `prefix_of` batch (callbacks self) m) as Hdispatch.
    { intros m evs' r'. unfold dispatch.
      destruct (run_callbacks (callbacks self) m) as [evs0 r0] eqn:Hrun.
      apply run_callbacks_spec in Hrun as (_ & Hprefix & _).
      intros [= <- <-] [= <- <-]. cbn. eauto. }
    destruct (SynapseMessage.from_file fs filepath) as [m|e].
    - destruct (message_filter self) as [flt|].
      + destruct (MessageFilter.matches flt m) as [[|]|e].
        * destruct (dispatch self m) as [evs' r'] eqn:Hd. eauto.
        * intros [= <- <-]. cbn. exists m. apply prefix_nil.
        * destruct (process_except filepath e) as [evs' r'] eqn:He. eauto.
      + destruct (dispatch self m) as [evs' r'] eqn:Hd. eauto.
    - destruct (process_except filepath e) as [evs' r'] eqn:He. eauto. }
  apply process_message_spec in Hproc as (_ & Hcalls & _).
  intros p. destruct (decide (p = filepath)) as [-> | Hne].
  - exists m. now rewrite calls_from_all.
  - exists m. rewrite calls_from_none; [apply prefix_nil |].
    intros x Hx. rewrite (Hcalls x Hx). congruence.
Qed.

Lemma process_all_batch (self : t) (fs : FileSystem) (new_messages : list Path)
    (evs : list event) (r : option exc) :
  NoDup new_messages ->
  process_all self fs new_messages = (evs, r) -> one_batch (callbacks self) evs.
Proof.
  revert evs r. induction new_messages as [|p rest IH]; intros evs r Hnodup;
    cbn [process_all].
  - intros [= <- <-]. now apply one_batch_quiet.
  - apply NoDup_cons in Hnodup as [Hfresh Hnodup].
    destruct (_process_message self fs p) as [evs1 [e|]] eqn:Hone.
    + intros [= <- <-]. eapply process_message_batch, Hone.
    + destruct (process_all self fs rest) as [evs2 r2] eqn:Hrest.
      intros [= <- <-].
      pose proof (process_message_batch _ _ _ _ _ Hone) as Hbatch.
      apply process_message_spec in Hone as (Hopen & Hcalls & _).
      pose proof (IH _ _ Hnodup eq_refl) as Hbatch2.
      apply process_all_spec in Hrest as ([k Hk] & _ & Hcalls2 & _).
      apply one_batch_app; auto.
      * rewrite Hopen. intros q ->%list_elem_of_singleton Hq.
        apply Hfresh. rewrite Hk. set_solver.
      * intros x Hx. rewrite Hopen, (Hcalls x Hx). set_solver.
Qed.

End Batches.

(** ** The loop *)

Section Loop.
Context `{PyRuntime}.

(** One pass through the [try] block. *)
Lemma poll_spec (self : t) (c : Cycle) (self' : t) (evs : list event) (r : option exc) :
  poll self c = (self', evs, r) ->
  self' = set_seen_messages self (seen_messages self ∪ stems (entries (listing c)))
  /\ NoDup (stem <$> opened evs)
  /\ (forall p, p ∈ opened evs ->
      p ∈ entries (listing c) /\ stem p ∉ seen_messages self)
  /\ (forall x, x ∈ calls evs -> SynapseMessage.filepath x.2 ∈ opened evs)
  /\ (r = None -> forall p, p ∈ entries (listing c) -> stem p ∉ seen_messages self ->
      exists q, q ∈ opened evs /\ stem q = stem p)
  /\ (forall e, r = Some e -> is_Exception e = false).
Proof.
  unfold poll.
  destruct (detect_spec self (listing c))
    as (added & Hself & Hok & Hraise & Hopen & Hcalls & Hnodup & Hadded & Hall).
  destruct (_detect_new_messages self (listing c)) as [[self1 evs1] [new|e]];
    cbn [fst snd] in *.
  - specialize (Hok new eq_refl) as ->.
    destruct (process_all self1 (files c) added) as [evs2 r2] eqn:Hproc.
    apply process_all_spec in Hproc as (Hprefix & Hdone & Hcalls2 & Hexc).
    assert (opened (evs1 ++ evs2) = opened evs2) as Hopened
      by (rewrite opened_app, Hopen; reflexivity).
    assert (calls (evs1 ++ evs2) = calls evs2) as Hcalled
      by (rewrite calls_app, Hcalls; reflexivity).
    assert (NoDup (stem <$> opened evs2)) as Hnodup2.
    { destruct Hprefix as [k ->]. rewrite fmap_app in Hnodup.
      now apply NoDup_app in Hnodup. }
    assert (forall p, p ∈ opened evs2 -> p ∈ added) as Hsub.
    { destruct Hprefix as [k ->]. set_solver. }
    destruct r2 as [e|]; intros [= <- <- <-].
    + rewrite Hopened, Hcalled. conjs.
      * exact Hself.
      * exact Hnodup2.
      * intros p Hp. apply Hadded. auto.
      * exact Hcalls2.
      * discriminate.
      * exact Hexc.
    + rewrite !app_assoc, opened_app, calls_app, Hopened, Hcalled. cbn.
      rewrite !app_nil_r. conjs.
      * exact Hself.
      * exact Hnodup2.
      * intros p Hp. apply Hadded. auto.
      * exact Hcalls2.
      * intros _ p Hp Hnew. rewrite (Hdone eq_refl). auto.
      * discriminate.
  - destruct (Hraise e eq_refl) as [_ He].
    intros [= <- <- <-]. rewrite Hopen, Hcalls. conjs.
    + exact Hself.
    + constructor.
    + set_solver.
    + set_solver.
    + discriminate.
    + congruence.
Qed.

Lemma other_thread_spec (c : Cycle) (self self' : t) (evs : list event) :
  other_thread c self = (self', evs) ->
  seen_messages self' = seen_messages self /\ opened evs = [] /\ calls evs = [].
Proof.
  unfold other_thread, stop. destruct (stop_called c); intros [= <- <-]; done.
Qed.

(** Across all iterations: the seen-set only grows, no stem is queued
    twice, a queued stem was not in the seen-set when the loop began,
    callbacks only receive what was queued, and when every scripted
    cycle ran, every stem listed and not seen before was queued. *)
Lemma watch_cycles_spec (cycles : list Cycle) (self self' : t)
    (evs : list event) (r : ending) :
  watch_cycles self cycles = (self', evs, r) ->
  seen_messages self ⊆ seen_messages self'
  /\ NoDup (stem <$> opened evs)
  /\ (forall p, p ∈ opened evs ->
      (stem p ∉ seen_messages self) /\ stem p ∈ seen_messages self'
      /\ exists c, c ∈ cycles /\ p ∈ entries (listing c))
  /\ (forall x, x ∈ calls evs -> SynapseMessage.filepath x.2 ∈ opened evs)
  /\ (r = Pending -> forall c p, c ∈ cycles -> p ∈ entries (listing c) ->
      stem p ∉ seen_messages self ->
      exists q, q ∈ opened evs /\ stem q = stem p).
Proof.
  revert self self' evs r.
  induction cycles as [|c rest IH]; intros self self' evs r; cbn [watch_cycles].
  - destruct (negb (running self)); intros [= <- <- <-]; cbn;
      conjs; try done; try set_solver; constructor.
  - destruct (negb (running self)).
    { intros [= <- <- <-]; cbn; conjs; try done; try set_solver; constructor. }
    destruct (poll self c) as [[self1 evs1] r1] eqn:Hpoll.
    apply poll_spec in Hpoll as (Hself1 & Hnodup1 & Hopen1 & Hcalls1 & Hall1 & Hexc1).
    assert (seen_messages self1 = seen_messages self ∪ stems (entries (listing c)))
      as Hseen1 by (rewrite Hself1; reflexivity).
    assert (forall self2 evs2 self3 evs3 r3 mid,
              other_thread c self1 = (self2, evs2) ->
              watch_cycles self2 rest = (self3, evs3, r3) ->
              opened mid = [] -> calls mid = [] ->
              r1 = None \/ (exists e, r1 = Some e /\ is_Exception e = true) ->
              (self3, (evs1 ++ mid) ++ evs2 ++ evs3, r3) = (self', evs, r) ->
              seen_messages self ⊆ seen_messages self'
              /\ NoDup (stem <$> opened evs)
              /\ (forall p, p ∈ opened evs ->
                  (stem p ∉ seen_messages self) /\ stem p ∈ seen_messages self'
                  /\ exists c0, c0 ∈ c :: rest /\ p ∈ entries (listing c0))
              /\ (forall x, x ∈ calls evs -> SynapseMessage.filepath x.2 ∈ opened evs)
              /\ (r = Pending -> forall c0 p, c0 ∈ c :: rest -> p ∈ entries (listing c0) ->
                  stem p ∉ seen_messages self ->
                  exists q, q ∈ opened evs /\ stem q = stem p)) as Hgo.
    { intros self2 evs2 self3 evs3 r3 mid Hother Hrest Hmid Hmid' Hr1 [= <- <- <-].
      apply other_thread_spec in Hother as (Hseen2 & Hopen2 & Hcalls2).
      apply IH in Hrest as (Hsub & Hnodup3 & Hopen3 & Hcalls3 & Hall3).
      rewrite Hseen2 in *.
      rewrite !opened_app, !calls_app, Hmid, Hmid', Hopen2, Hcalls2. cbn [app].
      rewrite !app_nil_r.
      destruct Hr1 as [-> | (e & -> & He)];
        [| rewrite (Hexc1 e eq_refl) in He; discriminate].
      split; [set_solver |]. split; [| split; [| split]].
      - rewrite fmap_app. apply NoDup_app. split; [exact Hnodup1 |].
        split; [| exact Hnodup3].
        intros s (p & -> & Hp)%list_elem_of_fmap (q & Hs & Hq)%list_elem_of_fmap.
        apply Hopen1 in Hp as [Hp _]. apply Hopen3 in Hq as [Hq _].
        apply Hq. rewrite Hseen1, <- Hs. apply elem_of_union_r, elem_of_stems. eauto.
      - intros p [Hp | Hp]%elem_of_app.
        + destruct (Hopen1 p Hp) as [Hin Hnew]. split; [exact Hnew |].
          split; [| exists c; set_solver].
          apply Hsub. rewrite Hseen1. apply elem_of_union_r, elem_of_stems. eauto.
        + destruct (Hopen3 p Hp) as (Hnew & Hseen & c0 & Hc0 & Hin).
          split; [set_solver |]. split; [exact Hseen |]. exists c0. set_solver.
      - intros x [Hx | Hx]%elem_of_app; set_solver.
      - intros -> c0 p Hc0 Hp Hnew.
        assert (exists p', p' ∈ entries (listing c) /\ stem p' = stem p
                \/ (c0 ∈ rest /\ stem p ∉ seen_messages self1)) as (p' & Hcase).
        { apply elem_of_cons in Hc0 as [-> | Hc0]; [exists p; by left |].
          destruct (decide (stem p ∈ stems (entries (listing c)))) as [Hin | Hout].
          - apply elem_of_stems in Hin as (p' & Hp' & Hstem). exists p'. by left.
          - exists p. right. split; [exact Hc0 | set_solver]. }
        destruct Hcase as [[Hp' Hstem] | [Hc0' Hnew']].
        + destruct (Hall1 eq_refl p' Hp') as (q & Hq & Hq'); [congruence |].
          exists q. split; [set_solver | congruence].
        + destruct (Hall3 eq_refl c0 p Hc0' Hp Hnew') as (q & Hq & Hq').
          exists q. split; [set_solver | exact Hq']. }
    destruct r1 as [e|].
    + destruct (is_KeyboardInterrupt e).
      { intros [= <- <- <-]. rewrite opened_app, calls_app. cbn. rewrite !app_nil_r.
        split; [set_solver |]. split; [exact Hnodup1 |]. split; [| split].
        - intros p Hp. destruct (Hopen1 p Hp) as [Hin Hnew]. split; [exact Hnew |].
          split; [| exists c; set_solver].
          rewrite Hseen1. apply elem_of_union_r, elem_of_stems. eauto.
        - exact Hcalls1.
        - discriminate. }
      destruct (is_Exception e) eqn:He.
      * destruct (other_thread c self1) as [self2 evs2] eqn:Hother.
        destruct (watch_cycles self2 rest) as [[self3 evs3] r3] eqn:Hrest.
        intros Heq.
        apply (Hgo self2 evs2 self3 evs3 r3
                 [Log ERROR (ErrorInWatchLoop e); Sleep (poll_interval self1)]);
          try done; [eauto |].
        rewrite <- Heq. now rewrite <- !app_assoc.
      * intros [= <- <- <-].
        split; [set_solver |]. split; [exact Hnodup1 |]. split; [| split].
        -- intros p Hp. destruct (Hopen1 p Hp) as [Hin Hnew]. split; [exact Hnew |].
           split; [| exists c; set_solver].
           rewrite Hseen1. apply elem_of_union_r, elem_of_stems. eauto.
        -- exact Hcalls1.
        -- discriminate.
    + destruct (other_thread c self1) as [self2 evs2] eqn:Hother.
      destruct (watch_cycles self2 rest) as [[self3 evs3] r3] eqn:Hrest.
      intros Heq.
      apply (Hgo self2 evs2 self3 evs3 r3 []); try done; [by left |].
      rewrite <- Heq. now rewrite app_nil_r.
Qed.

Lemma one_batch_calls (cbs : list Callback) (evs evs' : list event) :
  calls evs' = calls evs -> one_batch cbs evs -> one_batch cbs evs'.
Proof. intros Heq Hone p. unfold calls_from. rewrite Heq. apply Hone. Qed.

Lemma poll_batch (self : t) (c : Cycle) (self' : t) (evs : list event) (r : option exc) :
  poll self c = (self', evs, r) -> one_batch (callbacks self) evs.
Proof.
  unfold poll.
  destruct (detect_spec self (listing c))
    as (added & Hself & Hok & _ & _ & Hcalls & Hnodup & _).
  apply NoDup_fmap_1 in Hnodup.
  destruct (_detect_new_messages self (listing c)) as [[self1 evs1] [new|e]];
    cbn [fst snd] in *.
  - specialize (Hok new eq_refl) as ->.
    destruct (process_all self1 (files c) added) as [evs2 r2] eqn:Hproc.
    apply process_all_batch in Hproc; [| exact Hnodup].
    rewrite Hself in Hproc. cbn in Hproc.
    destruct r2 as [e|]; intros [= <- <- <-];
      apply (one_batch_calls _ evs2); auto;
      rewrite ?app_assoc, !calls_app, Hcalls; cbn; now rewrite ?app_nil_r.
  - intros [= <- <- <-]. now apply one_batch_quiet.
Qed.

(** The loop leaves the callback list, the filter and the interval as
    they were. *)
Lemma watch_cycles_frame (cycles : list Cycle) (self self' : t)
    (evs : list event) (r : ending) :
  watch_cycles self cycles = (self', evs, r) ->
  callbacks self' = callbacks self
  /\ message_filter self' = message_filter self
  /\ poll_interval self' = poll_interval self.
Proof.
  revert self self' evs r.
  induction cycles as [|c rest IH]; intros self self' evs r; cbn [watch_cycles].
  - destruct (negb (running self)); intros [= <- <- <-]; done.
  - destruct (negb (running self)); [intros [= <- <- <-]; done |].
    destruct (poll self c) as [[self1 evs1] r1] eqn:Hpoll.
    apply poll_spec in Hpoll as (-> & _).
    assert (forall self2 evs2 self3 evs3 r3,
              other_thread c (set_seen_messages self
                 (seen_messages self ∪ stems (entries (listing c)))) = (self2, evs2) ->
              watch_cycles self2 rest = (self3, evs3, r3) ->
              callbacks self3 = callbacks self
              /\ message_filter self3 = message_filter self
              /\ poll_interval self3 = poll_interval self) as Hgo.
    { intros self2 evs2 self3 evs3 r3 Hother Hrest.
      apply IH in Hrest as (-> & -> & ->).
      unfold other_thread, stop in Hother.
      destruct (stop_called c); injection Hother as <- _; done. }
    destruct r1 as [e|]; [destruct (is_KeyboardInterrupt e);
                          [| destruct (is_Exception e)] |];
      try (intros [= <- <- <-]; done);
      destruct (other_thread c _) as [self2 evs2] eqn:Hother;
      destruct (watch_cycles self2 rest) as [[self3 evs3] r3] eqn:Hrest;
      intros [= <- <- <-]; eauto.
Qed.

(** Over the whole loop, the invocations made for one file are the
    beginning of one batch. *)
Lemma watch_cycles_batch (cycles : list Cycle) (self self' : t)
    (evs : list event) (r : ending) :
  watch_cycles self cycles = (self', evs, r) -> one_batch (callbacks self) evs.
Proof.
  revert self self' evs r.
  induction cycles as [|c rest IH]; intros self self' evs r; cbn [watch_cycles].
  - destruct (negb (running self)); intros [= <- <- <-]; now apply one_batch_quiet.
  - destruct (negb (running self)); [intros [= <- <- <-]; now apply one_batch_quiet |].
    destruct (poll self c) as [[self1 evs1] r1] eqn:Hpoll.
    pose proof (poll_batch _ _ _ _ _ Hpoll) as Hbatch1.
    apply poll_spec in Hpoll as (Hself1 & _ & Hopen1 & Hcalls1 & _ & _).
    assert (forall self2 evs2 self3 evs3 r3 mid,
              other_thread c self1 = (self2, evs2) ->
              watch_cycles self2 rest = (self3, evs3, r3) ->
              calls mid = [] ->
              one_batch (callbacks self) (evs1 ++ mid ++ evs2 ++ evs3)) as Hgo.
    { intros self2 evs2 self3 evs3 r3 mid Hother Hrest Hmid.
      assert (callbacks self2 = callbacks self /\ seen_messages self2 = seen_messages self1)
        as [Hcbs Hseen2].
      { unfold other_thread, stop in Hother. rewrite Hself1 in *.
        destruct (stop_called c); injection Hother as <- _; done. }
      pose proof (IH _ _ _ _ Hrest) as Hbatch3. rewrite Hcbs in Hbatch3.
      apply watch_cycles_spec in Hrest as (_ & _ & Hopen3 & Hcalls3 & _).
      apply other_thread_spec in Hother as (_ & _ & Hcalls2).
      apply (one_batch_calls _ (evs1 ++ evs3));
        [rewrite !calls_app, Hmid, Hcalls2; reflexivity |].
      apply one_batch_app; auto.
      intros p Hp Hp'. apply Hopen1 in Hp as [Hp _]. apply Hopen3 in Hp' as [Hp' _].
      apply Hp'. rewrite Hseen2, Hself1. cbn.
      apply elem_of_union_r, elem_of_stems. eauto. }
    destruct r1 as [e|]; [destruct (is_KeyboardInterrupt e);
                          [| destruct (is_Exception e)] |].
    + intros [= <- <- <-]. apply (one_batch_calls _ evs1); [| exact Hbatch1].
      rewrite calls_app. cbn. now rewrite app_nil_r.
    + destruct (other_thread c self1) as [self2 evs2] eqn:Hother.
      destruct (watch_cycles self2 rest) as [[self3 evs3] r3] eqn:Hrest.
      intros [= <- <- <-].
      exact (Hgo _ _ _ _ _ [Log ERROR (ErrorInWatchLoop e); Sleep (poll_interval self1)]
               eq_refl Hrest eq_refl).
    + intros [= <- <- <-]. exact Hbatch1.
    + destruct (other_thread c self1) as [self2 evs2] eqn:Hother.
      destruct (watch_cycles self2 rest) as [[self3 evs3] r3] eqn:Hrest.
      intros [= <- <- <-]. exact (Hgo _ _ _ _ _ [] eq_refl Hrest eq_refl).
Qed.

End Loop.

(** ** From [start] to the end of the run *)

Lemma mark_seen_fold (dir : list Path) (seen : gset string) :
  fold_left mark_seen dir seen = seen ∪ stems dir.
Proof.
  revert seen. induction dir as [|p dir IH]; intros seen; cbn [fold_left].
  - unfold stems. cbn. set_solver.
  - rewrite IH, stems_cons. unfold mark_seen. set_solver.
Qed.



Section Run.
Context `{PyRuntime}.

(** A first [start]: the stems of the initial scan are seen from then
    on, nothing listed by that scan is ever opened, and what the loop
    guarantees carries over to the whole run. *)
Lemma start_spec (self : t) (start_dir : Listing) (cycles : list Cycle)
    (self' : t) (evs : list event) (r : ending) :
  running self = false ->
  start self start_dir cycles = (self', evs, r) ->
  seen_messages self ∪ stems (entries start_dir) ⊆ seen_messages self'
  /\ NoDup (stem <$> opened evs)
  /\ (forall p, p ∈ opened evs ->
      (stem p ∉ seen_messages self ∪ stems (entries start_dir))
      /\ stem p ∈ seen_messages self'
      /\ exists c, c ∈ cycles /\ p ∈ entries (listing c))
  /\ (forall x, x ∈ calls evs -> SynapseMessage.filepath x.2 ∈ opened evs)
  /\ one_batch (callbacks self) evs
  /\ (r = Pending -> forall c p, c ∈ cycles -> p ∈ entries (listing c) ->
      stem p ∉ seen_messages self ∪ stems (entries start_dir) ->
      exists q, q ∈ opened evs /\ stem q = stem p).
Proof.
  intros Hidle. unfold start, _watch_loop. rewrite Hidle, mark_seen_fold.
  set (self1 := set_seen_messages (set_running self true) _).
  destruct (failure start_dir) as [e|].
  - intros [= <- Hevs <-].
    assert (opened evs = [] /\ calls evs = []) as [Hopen Hcalls].
    { rewrite <- Hevs, !opened_app, !calls_app.
      destruct (callbacks self); cbn; done. }
    rewrite Hopen. conjs; try done; try set_solver.
    + constructor.
    + rewrite Hcalls. set_solver.
    + now apply one_batch_quiet.
  - destruct (watch_cycles self1 cycles) as [[self2 evs2] r2] eqn:Hloop.
    intros [= <- Hevs <-].
    assert (opened evs = opened evs2 /\ calls evs = calls evs2) as [Hopen Hcalls].
    { rewrite <- Hevs, !opened_app, !calls_app.
      destruct (callbacks self); cbn;
        rewrite ?opened_app, ?calls_app; cbn; now rewrite ?app_nil_r. }
    pose proof (watch_cycles_batch _ _ _ _ _ Hloop) as Hbatch.
    apply watch_cycles_spec in Hloop as (Hsub & Hnodup & Hopened & Hcalled & Hall).
    rewrite Hopen, Hcalls. conjs; try done.
    eapply one_batch_calls; [exact Hcalls | exact Hbatch].
Qed.

End Run.


Section Guarantees.
Context `{PyRuntime}.


(** C2: the initial scan of a first [start] puts the stem of every
    file it lists into the seen-set, opens none of them and calls no
    callback; and in the whole run no listed file is opened and no
    callback receives a message read from a file with the stem of a
    listed one. *)
Theorem C2_baseline_never_dispatched (self : t) (start_dir : Listing)
    (cycles : list Cycle) (self' : t) (evs : list event) (r : ending) :
  running self = false ->
  start self start_dir cycles = (self', evs, r) ->
  (forall p, p ∈ entries start_dir -> stem p ∈ seen_messages self')
  /\ (forall p, p ∈ entries start_dir -> p ∉ opened evs)
  /\ (forall cb m p, (cb, m) ∈ calls evs -> p ∈ entries start_dir ->
      stem (SynapseMessage.filepath m) <> stem p /\ SynapseMessage.filepath m <> p)
  /\ (cycles = [] -> opened evs = [] /\ calls evs = []).
Proof.
  intros Hidle Hstart.
  apply start_spec in Hstart as (Hsub & Hnodup & Hopened & Hcalls & _ & _);
    [| exact Hidle].
  assert (forall p q, p ∈ entries start_dir -> q ∈ opened evs -> stem q <> stem p)
    as Hfar.
  { intros p q Hp Hq Hstem. destruct (Hopened q Hq) as (Hnew & _).
    apply Hnew. rewrite Hstem. apply elem_of_union_r, elem_of_stems. eauto. }
  conjs.
  - intros p Hp. apply Hsub, elem_of_union_r, elem_of_stems. eauto.
  - intros p Hp Hq. now apply (Hfar p p).
  - intros cb m p Hcall Hp. apply Hcalls in Hcall. cbn in Hcall.
    pose proof (Hfar p _ Hp Hcall) as Hne. split; [exact Hne | congruence].
  - intros ->.
    assert (opened evs = []) as Hnone.
    { destruct (opened evs) as [|q l] eqn:Hq; [reflexivity |].
      destruct (Hopened q) as (_ & _ & c & Hc & _); [set_solver | set_solver]. }
    split; [exact Hnone |].
    destruct (calls evs) as [|x l] eqn:Hx; [reflexivity |].
    specialize (Hcalls x). rewrite Hnone in Hcalls. set_solver.
Qed.

(** C10: [start] on a watcher that is running returns at once; the
    watcher it leaves is the watcher it found, and the only thing it
    did was to log the warning. *)
Theorem C10_start_when_running (self : t) (start_dir : Listing) (cycles : list Cycle) :
  running self = true ->
  start self start_dir cycles = (self, [Log WARNING AlreadyRunning], Returned).
Proof. intros Hrunning. unfold start. now rewrite Hrunning. Qed.

(** [_process_message] reads the filter and the callbacks only. *)
Lemma process_message_seen (self : t) (seen : gset string) (fs : FileSystem) (p : Path) :
  _process_message (set_seen_messages self seen) fs p = _process_message self fs p.
Proof. reflexivity. Qed.

Lemma process_message_dispatched (self : t) (fs : FileSystem) (filepath : Path)
    (m : SynapseMessage.t) :
  SynapseMessage.from_file fs filepath = Ok m ->
  filter_passes self m ->
  _process_message self fs filepath
  = (Open filepath :: (dispatch self m).1, (dispatch self m).2).
Proof.
  intros Hload Hpass. unfold _process_message, filter_passes in *. rewrite Hload.
  destruct (message_filter self) as [flt|]; [rewrite Hpass |];
    now destruct (dispatch self m).
Qed.




End Guarantees.

(** ** Stopping *)

Section Stopping.
Context `{PyRuntime}.

Import Timed.

Lemma sleep_bounded_sleep (w : SynapseWatcher.t) (n : nat) :
  n <= poll_interval w -> sleep_bounded (mkThread w (sleep n)).
Proof. unfold sleep_bounded. destruct n; cbn; lia. Qed.

Lemma step_sleep_bounded (a : action) (th : thread) :
  sleep_bounded th -> sleep_bounded (step a th).1.
Proof.
  intros Hth. destruct a as [c| |]; unfold step.
  - destruct (at_phase th) eqn:Hphase; try exact Hth.
    destruct (negb (running (self th))); [exact I |].
    destruct (poll (self th) c) as [[self1 evs] r] eqn:Hpoll.
    apply poll_spec in Hpoll as (-> & _).
    destruct r as [e|]; [destruct (is_KeyboardInterrupt e); [exact I |];
                         destruct (is_Exception e); [| exact I] |];
      cbn [fst]; now apply sleep_bounded_sleep.
  - destruct (at_phase th) as [|n|] eqn:Hphase; try exact Hth.
    cbn [fst]. apply sleep_bounded_sleep.
    unfold sleep_bounded in Hth. rewrite Hphase in Hth. lia.
  - cbn. exact Hth.
Qed.

Lemma steps_sleep_bounded (acts : list action) (th : thread) :
  sleep_bounded th -> sleep_bounded (steps acts th).1.
Proof.
  revert th. induction acts as [|a acts IH]; intros th Hth; cbn [steps]; [exact Hth |].
  pose proof (step_sleep_bounded a th Hth) as Hth1.
  destruct (step a th) as [th1 evs]. specialize (IH th1 Hth1).
  now destruct (steps acts th1) as [th2 evs'].
Qed.

(** Ticks on a sleeping thread: it stays asleep until the last one. *)
Lemma ticks_asleep (w : SynapseWatcher.t) (n k : nat) :
  k <= n ->
  steps (replicate k Tick) (mkThread w (InSleep (S n)))
  = (mkThread w (InSleep (S n - k)), []).
Proof.
  revert n. induction k as [|k IH]; intros n Hk; cbn [replicate steps].
  - now rewrite Nat.sub_0_r.
  - destruct n as [|n]; [lia |]. cbn [step at_phase self pred sleep].
    rewrite IH by lia. reflexivity.
Qed.

Lemma ticks_awake (w : SynapseWatcher.t) (n : nat) :
  steps (replicate (S n) Tick) (mkThread w (InSleep (S n))) = (mkThread w AtWhile, []).
Proof.
  replace (S n) with (n + 1) at 1 by lia. rewrite replicate_add.
  assert (forall acts acts' th,
            steps (acts ++ acts') th
            = (let '(th1, evs) := steps acts th in
               let '(th2, evs') := steps acts' th1 in (th2, evs ++ evs'))) as Happ.
  { induction acts as [|a acts IH]; intros acts' th; cbn [app steps].
    - now destruct (steps acts' th).
    - destruct (step a th) as [th1 evs1]. rewrite IH.
      destruct (steps acts th1) as [th2 evs2]. destruct (steps acts' th2) as [th3 evs3].
      now rewrite app_assoc. }
  rewrite Happ, ticks_asleep by lia.
  replace (S n - n) with 1 by lia. reflexivity.
Qed.

(** C9, amended: a stop request issued while the loop sleeps only
    clears the flag.  The sleep is not cut short: the thread stays in
    [time.sleep] for all the ticks it had left, which are at most one
    poll interval; the flag is read at the head of the loop only, and
    there the loop ends without detecting or dispatching anything. *)
Theorem C9_stop_observed_at_loop_head (w : SynapseWatcher.t) (acts : list action)
    (n : nat) (c : Cycle) :
  at_phase (steps acts (mkThread w AtWhile)).1 = InSleep (S n) ->
  let th := (steps acts (mkThread w AtWhile)).1 in
  let stopped := (step StopCall th).1 in
  at_phase stopped = InSleep (S n)
  /\ running (self stopped) = false
  /\ S n <= poll_interval (self th)
  /\ (forall k, k <= n ->
      at_phase (steps (replicate k Tick) stopped).1 = InSleep (S n - k))
  /\ steps (replicate (S n) Tick) stopped = (mkThread (self stopped) AtWhile, [])
  /\ step (Run c) (mkThread (self stopped) AtWhile)
     = (mkThread (self stopped) (Done Returned), []).
Proof.
  intros Hphase th stopped.
  assert (sleep_bounded th) as Hbound by (apply steps_sleep_bounded; exact I).
  unfold sleep_bounded in Hbound. fold th in Hphase. rewrite Hphase in Hbound.
  assert (stopped = mkThread (set_running (self th) false) (InSleep (S n))) as ->.
  { subst stopped. unfold step. cbn. now rewrite Hphase. }
  cbn [at_phase self]. conjs.
  - reflexivity.
  - reflexivity.
  - lia.
  - intros k Hk. now rewrite ticks_asleep.
  - apply ticks_awake.
  - reflexivity.
Qed.

End Stopping.

(** ** The scenario, run *)

Import Scenario.

(** C9, as written, on the scenario: the loop has just entered its
    five-tick sleep when [stop] is called; four ticks later the thread is
    still inside [time.sleep], the flag being cleared all the while. *)
Lemma C9_sleep_not_interrupted :
  let asleep := (Timed.steps [Timed.Run first_cycle] (Timed.mkThread watching Timed.AtWhile)).1 in
  let later :=
    (Timed.steps [Timed.StopCall; Timed.Tick; Timed.Tick; Timed.Tick; Timed.Tick] asleep).1 in
  Timed.at_phase asleep = Timed.InSleep 5
  /\ running (Timed.self (Timed.step Timed.StopCall asleep).1) = false
  /\ Timed.at_phase (Timed.step Timed.StopCall asleep).1 = Timed.InSleep 5
  /\ Timed.at_phase later = Timed.InSleep 1
  /\ Timed.at_phase later <> Timed.Done Returned.
Proof. vm_compute. repeat split; discriminate. Qed.

Lemma C9_stop_observed_at_loop_head_witness :
  let th := (Timed.steps [Timed.Run first_cycle; Timed.Tick; Timed.Tick]
               (Timed.mkThread watching Timed.AtWhile)).1 in
  let stopped := (Timed.step Timed.StopCall th).1 in
  Timed.at_phase stopped = Timed.InSleep 3
  /\ running (Timed.self stopped) = false
  /\ 3 <= poll_interval (Timed.self th)
  /\ (forall k, k <= 2 ->
      Timed.at_phase (Timed.steps (replicate k Timed.Tick) stopped).1 = Timed.InSleep (3 - k))
  /\ Timed.steps (replicate 3 Timed.Tick) stopped
     = (Timed.mkThread (Timed.self stopped) Timed.AtWhile, [])
  /\ Timed.step (Timed.Run second_cycle) (Timed.mkThread (Timed.self stopped) Timed.AtWhile)
     = (Timed.mkThread (Timed.self stopped) (Timed.Done Returned), []).
Proof.
  apply (C9_stop_observed_at_loop_head watching
           [Timed.Run first_cycle; Timed.Tick; Timed.Tick] 2 second_cycle).
  vm_compute. reflexivity.
Defined.

Lemma C10_start_when_running_witness :
  start watching at_start [first_cycle; second_cycle]
  = (watching, [Log WARNING AlreadyRunning], Returned).
Proof.
  apply (C10_start_when_running watching at_start [first_cycle; second_cycle]).
  reflexivity.
Defined.





Lemma C2_baseline_never_dispatched_witness :
  let run := start idle at_start [busy_cycle] in
  stem old_file ∈ seen_messages run.1.1
  /\ (old_file ∉ opened run.1.2)
  /\ (forall cb m, (cb, m) ∈ calls run.1.2 -> SynapseMessage.filepath m <> old_file).
Proof.
  intros run.
  destruct (C2_baseline_never_dispatched idle at_start [busy_cycle]
              run.1.1 run.1.2 run.2)
    as (Hseen & Hopened & Hcalls & _).
  - reflexivity.
  - subst run. now destruct (start idle at_start [busy_cycle]) as [[? ?] ?].
  - split; [apply Hseen, list_elem_of_here |].
    split; [apply Hopened, list_elem_of_here |].
    intros cb m Hcall. apply (Hcalls cb m old_file Hcall), list_elem_of_here.
Defined.


(** * Further properties *)

(** ** The filter, constraint by constraint *)

Section FilterMore.
Context `{PyRuntime}.

(** X1: a filter none of whose constraints is set (each one [None], the
    empty string or the empty keyword list) matches every message,
    whatever its fields hold, and never raises. *)
Theorem X1_unset_filter_matches_all (flt : MessageFilter.t) (message : SynapseMessage.t) :
  MessageFilter.truthy (MessageFilter.to_agent flt) = false ->
  MessageFilter.truthy (MessageFilter.from_agent flt) = false ->
  MessageFilter.truthy (MessageFilter.priority flt) = false ->
  MessageFilter.keywords flt = [] ->
  MessageFilter.matches flt message = Ok true.
Proof.
  intros Hto Hfrom Hprio Hkws. apply matches_true.
  unfold MessageFilter.to_agent_fails, MessageFilter.from_agent_fails,
    MessageFilter.priority_fails.
  destruct (MessageFilter.to_agent flt), (MessageFilter.from_agent flt),
    (MessageFilter.priority flt);
    rewrite ?Hto, ?Hfrom, ?Hprio; cbn [andb]; auto.
Qed.

(** X2: with the sender constraint set to a non-empty string, the
    sender check passes exactly when the message's sender is that very
    string, and a message from anyone else is rejected: [matches]
    returns [False], without raising, whatever the other constraints and
    fields are. *)
Theorem X2_sender_check (flt : MessageFilter.t) (X : string) (message : SynapseMessage.t) :
  MessageFilter.from_agent flt = Some X ->
  X <> "" ->
  (MessageFilter.from_agent_fails flt message = false <->
     SynapseMessage.from_agent message = PyStr X)
  /\ (SynapseMessage.from_agent message <> PyStr X ->
      MessageFilter.matches flt message = Ok false).
Proof.
  intros Hfrom HX.
  assert (MessageFilter.from_agent_fails flt message = false <->
            SynapseMessage.from_agent message = PyStr X) as Hcheck.
  { unfold MessageFilter.from_agent_fails. rewrite Hfrom.
    apply truthy_Some in HX. rewrite HX. cbn [andb].
    destruct (SynapseMessage.from_agent message) as [| | | |s| |]; cbn;
      try (split; [discriminate | discriminate]).
    destruct (String.eqb_spec s X) as [-> | Hne]; cbn; split; congruence. }
  split; [exact Hcheck |].
  intros Hother. unfold MessageFilter.matches.
  destruct (MessageFilter.to_agent_fails flt message); [reflexivity |].
  destruct (MessageFilter.from_agent_fails flt message); [reflexivity |].
  destruct Hother. now apply Hcheck.
Qed.

(** X3: the same for the priority constraint: the check passes exactly
    when the message's priority is the constraint's string, and a
    message of another priority is rejected whatever else holds. *)
Theorem X3_priority_check (flt : MessageFilter.t) (X : string) (message : SynapseMessage.t) :
  MessageFilter.priority flt = Some X ->
  X <> "" ->
  (MessageFilter.priority_fails flt message = false <->
     SynapseMessage.priority message = PyStr X)
  /\ (SynapseMessage.priority message <> PyStr X ->
      MessageFilter.matches flt message = Ok false).
Proof.
  intros Hprio HX.
  assert (MessageFilter.priority_fails flt message = false <->
            SynapseMessage.priority message = PyStr X) as Hcheck.
  { unfold MessageFilter.priority_fails. rewrite Hprio.
    apply truthy_Some in HX. rewrite HX. cbn [andb].
    destruct (SynapseMessage.priority message) as [| | | |s| |]; cbn;
      try (split; [discriminate | discriminate]).
    destruct (String.eqb_spec s X) as [-> | Hne]; cbn; split; congruence. }
  split; [exact Hcheck |].
  intros Hother. unfold MessageFilter.matches.
  destruct (MessageFilter.to_agent_fails flt message); [reflexivity |].
  destruct (MessageFilter.from_agent_fails flt message); [reflexivity |].
  destruct (MessageFilter.priority_fails flt message); [reflexivity |].
  destruct Hother. now apply Hcheck.
Qed.

(** X4: [matches] raises in one situation only: the recipient, sender
    and priority checks pass, keywords are set, and the subject is not
    a string; what it raises then is a [TypeError]. *)
Theorem X4_matches_raises_on_subject (flt : MessageFilter.t) (message : SynapseMessage.t) :
  ((exists e, MessageFilter.matches flt message = Raise e) <->
     MessageFilter.to_agent_fails flt message = false
     /\ MessageFilter.from_agent_fails flt message = false
     /\ MessageFilter.priority_fails flt message = false
     /\ MessageFilter.keywords flt <> []
     /\ forall s, SynapseMessage.subject message <> PyStr s)
  /\ (forall e, MessageFilter.matches flt message = Raise e -> exc_cls e = TypeError).
Proof.
  unfold MessageFilter.matches, MessageFilter.keywords_pass.
  destruct (MessageFilter.to_agent_fails flt message);
    [split; [split; [intros [e He]; discriminate | intros (? & _); discriminate]
            | discriminate] |].
  destruct (MessageFilter.from_agent_fails flt message);
    [split; [split; [intros [e He]; discriminate | intros (_ & ? & _); discriminate]
            | discriminate] |].
  destruct (MessageFilter.priority_fails flt message);
    [split; [split; [intros [e He]; discriminate | intros (_ & _ & ? & _); discriminate]
            | discriminate] |].
  destruct (MessageFilter.keywords flt) as [|kw kws] eqn:Hkws.
  { split; [split; [intros [e He]; discriminate | intros (_ & _ & _ & ? & _); done]
           | discriminate]. }
  destruct (SynapseMessage.subject message) as [| | | |s| |];
    try (split; [split; [intros _; conjs; (reflexivity || discriminate)
                        | intros _; eexists; reflexivity]
                | intros e [= <-]; reflexivity]).
  split; [split |].
  - intros [e He]. destruct (existsb _ _); discriminate.
  - intros (_ & _ & _ & _ & Hsubject). now destruct (Hsubject s).
  - intros e He. destruct (existsb _ _); discriminate.
Qed.

(** X5: the constraints combine as a conjunction: a filter accepts a
    message exactly when the four filters that keep one of its
    constraints each, and leave the others unset, all accept it. *)
Theorem X5_filter_is_conjunction
    (to_agent from_agent priority : option string) (keywords : list string)
    (message : SynapseMessage.t) :
  MessageFilter.matches (MessageFilter.mk to_agent from_agent priority keywords) message
  = Ok true
  <->
  MessageFilter.matches (MessageFilter.mk to_agent None None []) message = Ok true
  /\ MessageFilter.matches (MessageFilter.mk None from_agent None []) message = Ok true
  /\ MessageFilter.matches (MessageFilter.mk None None priority []) message = Ok true
  /\ MessageFilter.matches (MessageFilter.mk None None None keywords) message = Ok true.
Proof.
  rewrite !matches_true.
  unfold MessageFilter.to_agent_fails, MessageFilter.from_agent_fails,
    MessageFilter.priority_fails, MessageFilter.keywords_pass.
  cbn [MessageFilter.to_agent MessageFilter.from_agent MessageFilter.priority
       MessageFilter.keywords].
  intuition auto.
Qed.

End FilterMore.

(** ** Messages that are not delivered *)

Lemma register_all_fields (cbs : list Callback) (self : t) :
  callbacks (register_all self cbs) = callbacks self ++ cbs
  /\ message_filter (register_all self cbs) = message_filter self
  /\ seen_messages (register_all self cbs) = seen_messages self
  /\ running (register_all self cbs) = running self
  /\ poll_interval (register_all self cbs) = poll_interval self.
Proof.
  revert self. unfold register_all.
  induction cbs as [|cb cbs IH]; intros self; cbn [fold_left].
  - now rewrite app_nil_r.
  - destruct (IH (register_callback self cb).1) as (-> & -> & -> & -> & ->).
    cbn. now rewrite <- app_assoc.
Qed.

Section Undelivered.
Context `{PyRuntime}.

(** What a run from a given seen-set cannot do: open a file whose stem
    is in it, or hand a message of such a file to a callback. *)
Lemma seen_never_opened (self self' : t) (cycles : list Cycle)
    (evs : list event) (r : ending) (p : Path) :
  watch_cycles self cycles = (self', evs, r) ->
  stem p ∈ seen_messages self ->
  (p ∉ opened evs)
  /\ forall cb m, (cb, m) ∈ calls evs -> SynapseMessage.filepath m <> p.
Proof.
  intros Hloop Hseen.
  apply watch_cycles_spec in Hloop as (_ & _ & Hopened & Hcalls & _).
  assert (p ∉ opened evs) as Hnot.
  { intros Hp. apply Hopened in Hp as [Hnew _]. exact (Hnew Hseen). }
  split; [exact Hnot |].
  intros cb m Hcall <-. apply Hnot. exact (Hcalls _ Hcall).
Qed.

(** X6: a file whose JSON is valid but is not an object (a list, a
    string, a number, [true], [null]) cannot be turned into a message:
    [from_file] raises [AttributeError], and [_process_message] logs the
    error, calls no callback and returns normally. *)
Theorem X6_payload_not_an_object (self : t) (fs : FileSystem) (filepath : Path)
    (data : pyval) :
  fs filepath = Ok data ->
  (forall d, data <> PyDict d) ->
  exists e,
    SynapseMessage.from_file fs filepath = Raise e
    /\ exc_cls e = AttributeError
    /\ _process_message self fs filepath
       = ([Open filepath; Log ERROR (ErrorProcessing (name filepath) e)], None).
Proof.
  intros Hfs Hdata. unfold _process_message, SynapseMessage.from_file. rewrite Hfs.
  destruct data as [| | | | | |d]; try (eexists; repeat split; reflexivity).
  now destruct (Hdata d).
Qed.

(** X7: a message the filter rejects is consumed.  The iteration that
    finds it calls no callback and still records its stem; whatever
    filter is set afterwards, no later iteration opens the file or
    delivers it. *)
Theorem X7_rejected_message_is_consumed (self : t) (c : Cycle) (filepath : Path)
    (flt : MessageFilter.t) (m : SynapseMessage.t) :
  listing c = mkListing [filepath] None ->
  stem filepath ∉ seen_messages self ->
  message_filter self = Some flt ->
  SynapseMessage.from_file (files c) filepath = Ok m ->
  MessageFilter.matches flt m = Ok false ->
  exists self1,
    poll self c
    = (self1, [Open filepath; Log DEBUG (FilteredOut (SynapseMessage.msg_id m));
               Sleep (poll_interval self)], None)
    /\ stem filepath ∈ seen_messages self1
    /\ forall flt' cycles self' evs r,
         watch_cycles (set_filter self1 flt').1 cycles = (self', evs, r) ->
         (filepath ∉ opened evs)
         /\ forall cb m', (cb, m') ∈ calls evs -> SynapseMessage.filepath m' <> filepath.
Proof.
  intros Hlisting Hnew Hflt Hload Hreject.
  eexists. split; [| split].
  - unfold poll, _detect_new_messages. rewrite Hlisting. cbn [entries failure fold_left].
    rewrite (detect_step_new _ filepath) by exact Hnew.
    cbn [app process_all fst snd]. rewrite process_message_seen.
    unfold _process_message. rewrite Hload, Hflt, Hreject. reflexivity.
  - cbn. set_solver.
  - intros flt' cycles self' evs r Hloop.
    apply (seen_never_opened _ _ _ _ _ filepath) in Hloop; [exact Hloop |].
    cbn. set_solver.
Qed.

(** X14: a message found while no callback is registered is consumed
    as well: it is opened and logged as new, and a callback registered
    afterwards never receives it. *)
Theorem X14_no_callback_message_is_consumed (self : t) (c : Cycle) (filepath : Path)
    (m : SynapseMessage.t) :
  listing c = mkListing [filepath] None ->
  stem filepath ∉ seen_messages self ->
  callbacks self = [] ->
  SynapseMessage.from_file (files c) filepath = Ok m ->
  filter_passes self m ->
  exists self1,
    poll self c
    = (self1, [Open filepath;
               Log INFO (NewMessage (SynapseMessage.msg_id m)
                                    (SynapseMessage.from_agent m)
                                    (SynapseMessage.subject m));
               Sleep (poll_interval self)], None)
    /\ forall cbs cycles self' evs r,
         watch_cycles (register_all self1 cbs) cycles = (self', evs, r) ->
         (filepath ∉ opened evs)
         /\ forall cb m', (cb, m') ∈ calls evs -> SynapseMessage.filepath m' <> filepath.
Proof.
  intros Hlisting Hnew Hnone Hload Hpass.
  eexists. split.
  - unfold poll, _detect_new_messages. rewrite Hlisting. cbn [entries failure fold_left].
    rewrite (detect_step_new _ filepath) by exact Hnew.
    cbn [app process_all fst snd]. rewrite process_message_seen.
    rewrite (process_message_dispatched _ _ _ _ Hload Hpass).
    unfold dispatch. rewrite Hnone. reflexivity.
  - intros cbs cycles self' evs r Hloop.
    apply (seen_never_opened _ _ _ _ _ filepath) in Hloop; [exact Hloop |].
    destruct (register_all_fields cbs
                (set_seen_messages self ({[stem filepath]} ∪ seen_messages self)))
      as (_ & _ & -> & _).
    cbn. set_solver.
Qed.


End Undelivered.

(** ** Detection, once more *)


(** X8: detection run twice on one listing finds nothing the second
    time and leaves the watcher as the first run left it. *)
Theorem X8_detection_is_idempotent (self : t) (dir : Listing) :
  let self1 := (_detect_new_messages self dir).1.1 in
  (_detect_new_messages self1 dir).1.1 = self1
  /\ forall new_messages, (_detect_new_messages self1 dir).2 = Ok new_messages ->
     new_messages = [].
Proof.
  intros self1.
  destruct (detect_spec self dir) as (added & Hself & _).
  fold self1 in Hself.
  destruct (detect_spec self1 dir) as (added1 & Hself1 & Hok & _ & _ & _ & _ & Hadded & _).
  assert (seen_messages self1 = seen_messages self ∪ stems (entries dir)) as Hseen
    by (rewrite Hself; reflexivity).
  split.
  - rewrite Hself1, Hseen, Hself. cbn. f_equal. set_solver.
  - intros new Hnew. rewrite (Hok new Hnew).
    destruct added1 as [|p l]; [reflexivity |].
    destruct (Hadded p) as [Hin Hnot]; [set_solver |].
    destruct Hnot. rewrite Hseen. apply elem_of_union_r, elem_of_stems. eauto.
Qed.


(** ** How the loop ends, and what it leaves *)




Section Endings.
Context `{PyRuntime}.






(** The stems a loop adds are those listed by the iterations it ran. *)
Lemma watch_cycles_seen (cycles : list Cycle) (self self' : t)
    (evs : list event) (r : ending) :
  watch_cycles self cycles = (self', evs, r) ->
  exists ran,
    ran `prefix_of` cycles
    /\ seen_messages self' = seen_messages self ∪ listed ran
    /\ (r = Pending -> ran = cycles).
Proof.
  revert self self' evs r.
  induction cycles as [|c rest IH]; intros self self' evs r; cbn [watch_cycles].
  - destruct (negb (running self)); intros [= <- <- <-]; exists [];
      (split; [apply prefix_nil | split; [unfold listed; cbn; set_solver | done]]).
  - destruct (negb (running self)).
    { intros [= <- <- <-]. exists [].
      split; [apply prefix_nil | split; [unfold listed; cbn; set_solver | done]]. }
    destruct (poll self c) as [[self1 evs1] r1] eqn:Hpoll.
    apply poll_spec in Hpoll as (Hself1 & _ & _ & _ & _ & Hexc).
    assert (seen_messages self1 = seen_messages self ∪ listed [c]) as Hseen1.
    { rewrite Hself1. unfold listed. cbn. set_solver. }
    assert (forall self2 evs2 self3 evs3 r3,
              other_thread c self1 = (self2, evs2) ->
              watch_cycles self2 rest = (self3, evs3, r3) ->
              exists ran,
                ran `prefix_of` c :: rest
                /\ seen_messages self3 = seen_messages self ∪ listed ran
                /\ (r3 = Pending -> ran = c :: rest)) as Hgo.
    { intros self2 evs2 self3 evs3 r3 Hother Hrest.
      apply other_thread_spec in Hother as (Hseen2 & _).
      apply IH in Hrest as (ran & Hprefix & Hseen3 & Hall).
      exists (c :: ran). split; [now apply prefix_cons |]. split.
      - rewrite Hseen3, Hseen2, Hseen1. unfold listed. cbn. set_solver.
      - intros Hr. now rewrite (Hall Hr). }
    destruct r1 as [e|]; [destruct (is_KeyboardInterrupt e);
                          [| rewrite (Hexc e eq_refl)] |].
    + intros [= <- <- <-]. exists [c].
      split; [apply prefix_cons, prefix_nil | split; [exact Hseen1 | done]].
    + intros [= <- <- <-]. exists [c].
      split; [apply prefix_cons, prefix_nil | split; [exact Hseen1 | done]].
    + destruct (other_thread c self1) as [self2 evs2] eqn:Hother.
      destruct (watch_cycles self2 rest) as [[self3 evs3] r3] eqn:Hrest.
      intros [= <- <- <-]. eauto.
Qed.

(** X11: a [start] that enters the loop always comes back with the
    running flag cleared, however the loop ended, an exception
    included; it leaves the callbacks, the filter and the interval as
    they were and never takes a stem out of the seen-set. *)
Theorem X11_start_resets_running (self : t) (start_dir : Listing) (cycles : list Cycle)
    (self' : t) (evs : list event) (r : ending) :
  running self = false ->
  start self start_dir cycles = (self', evs, r) ->
  running self' = false
  /\ callbacks self' = callbacks self
  /\ message_filter self' = message_filter self
  /\ poll_interval self' = poll_interval self
  /\ seen_messages self ⊆ seen_messages self'.
Proof.
  intros Hidle Hstart.
  pose proof (start_spec _ _ _ _ _ _ Hidle Hstart) as (Hsub & _).
  revert Hstart. unfold start, _watch_loop. rewrite Hidle.
  destruct (failure start_dir) as [e|].
  - intros [= <- _ _]. conjs; try reflexivity. set_solver.
  - set (self1 := set_seen_messages _ _).
    destruct (watch_cycles self1 cycles) as [[self2 evs2] r2] eqn:Hloop.
    apply watch_cycles_frame in Hloop as (Hcbs & Hflt & Hint).
    intros [= <- _ _]. conjs; try reflexivity; try assumption. set_solver.
Qed.

(** X12: an exception raised while the directory is listed for the
    initial scan is not caught, be it an ordinary [Exception]: [start]
    raises it, having run no iteration (nothing opened, nothing called,
    no sleep); the stems listed before it are in the seen-set and the
    flag is cleared on the way out. *)
Theorem X12_initial_scan_failure (self : t) (start_dir : Listing) (cycles : list Cycle)
    (e : exc) :
  running self = false ->
  failure start_dir = Some e ->
  exists self' evs,
    start self start_dir cycles = (self', evs, Raised e)
    /\ running self' = false
    /\ seen_messages self' = seen_messages self ∪ stems (entries start_dir)
    /\ opened evs = [] /\ calls evs = []
    /\ (forall n, Sleep n ∉ evs)
    /\ Log INFO Stopped ∈ evs.
Proof.
  intros Hidle Hfailure. unfold start, _watch_loop.
  rewrite Hidle, Hfailure, mark_seen_fold.
  eexists. eexists. split; [reflexivity |].
  destruct (callbacks self); cbn; conjs; try reflexivity;
    try (intros n Hn; repeat (apply elem_of_cons in Hn as [Hn | Hn]; [discriminate |]);
         by apply elem_of_nil in Hn);
    set_solver.
Qed.

(** X13: once [stop] has been called during an iteration, that
    iteration is the last: the loop returns at its next test of the
    flag and the directory is not looked at again. *)
Theorem X13_stop_ends_the_loop (self self1 : t) (c : Cycle) (rest : list Cycle)
    (evs : list event) :
  running self = true ->
  poll self c = (self1, evs, None) ->
  stop_called c = true ->
  watch_cycles self (c :: rest)
  = (set_running self1 false, evs ++ [Log INFO StopRequested], Returned).
Proof.
  intros Hrunning Hpoll Hstop. cbn [watch_cycles].
  rewrite Hrunning, Hpoll. cbn [negb]. unfold other_thread, stop. rewrite Hstop.
  destruct rest; cbn; now rewrite ?app_nil_r.
Qed.


(** X20: after a first [start] the seen-set is what it was, plus the
    stems of the initial scan, plus the stems listed by the iterations
    that ran (all of them when the script ran out): a listed file is
    recorded whether or not it could be read, passed the filter or was
    delivered. *)
Theorem X20_seen_set_after_a_run (self : t) (start_dir : Listing) (cycles : list Cycle)
    (self' : t) (evs : list event) (r : ending) :
  running self = false ->
  failure start_dir = None ->
  start self start_dir cycles = (self', evs, r) ->
  exists ran,
    ran `prefix_of` cycles
    /\ seen_messages self'
       = seen_messages self ∪ stems (entries start_dir) ∪ listed ran
    /\ (r = Pending -> ran = cycles).
Proof.
  intros Hidle Hfailure. unfold start, _watch_loop.
  rewrite Hidle, Hfailure, mark_seen_fold.
  set (self1 := set_seen_messages _ _).
  destruct (watch_cycles self1 cycles) as [[self2 evs2] r2] eqn:Hloop.
  apply watch_cycles_seen in Hloop as (ran & Hprefix & Hseen & Hall).
  intros [= <- _ <-]. exists ran. conjs; [exact Hprefix | exact Hseen | exact Hall].
Qed.

End Endings.

(** ** The filter of the command line *)

Lemma split_not_nil (sep : ascii) (s : string) : Main.split sep s <> [].
Proof.
  destruct s as [|c s]; cbn [Main.split]; [discriminate |].
  destruct (Ascii.eqb c sep); [discriminate |].
  destruct (Main.split sep s); discriminate.
Qed.

Lemma concat_cons (sep x : string) (l : list string) :
  l <> [] -> String.concat sep (x :: l) = x +:+ sep +:+ String.concat sep l.
Proof. destruct l; [done | reflexivity]. Qed.

(** Joining the pieces with the separator gives the string back. *)
Lemma split_concat (sep : ascii) (s : string) :
  String.concat (String sep EmptyString) (Main.split sep s) = s.
Proof.
  induction s as [|c s IH]; [reflexivity |].
  cbn [Main.split]. pose proof (split_not_nil sep s) as Hne.
  destruct (Ascii.eqb_spec c sep) as [-> | Hc].
  - rewrite concat_cons by exact Hne. now rewrite IH.
  - destruct (Main.split sep s) as [|piece pieces]; [done |].
    destruct pieces as [|piece' pieces].
    + cbn in IH |- *. now rewrite IH.
    + rewrite concat_cons in IH |- * by discriminate.
      change (String c (piece +:+ String sep EmptyString
                          +:+ String.concat (String sep EmptyString) (piece' :: pieces))
              = String c s).
      now rewrite IH.
Qed.

(** No piece holds the separator. *)
Lemma split_pieces (sep : ascii) (s piece : string) :
  In piece (Main.split sep s) -> Builtins.contains_char sep piece = false.
Proof.
  revert piece. induction s as [|c s IH]; intros piece; cbn [Main.split].
  - intros [<- | []]. reflexivity.
  - destruct (Ascii.eqb_spec c sep) as [-> | Hc].
    + intros [<- | Hin]; [reflexivity | now apply IH].
    + destruct (Main.split sep s) as [|first pieces]; [intros [<- | []] |].
      * cbn. destruct (Ascii.eqb_spec sep c); [congruence | reflexivity].
      * intros [<- | Hin].
        -- cbn [Builtins.contains_char]. rewrite (IH first) by now left.
           destruct (Ascii.eqb_spec sep c); [congruence | reflexivity].
        -- apply IH. now right.
Qed.

(** A string that ends with the separator ends with an empty piece. *)
Lemma split_trailing (sep : ascii) (a : string) :
  exists l, l <> [] /\ Main.split sep (a +:+ String sep EmptyString) = l ++ [EmptyString].
Proof.
  induction a as [|c a IH].
  - exists [EmptyString]. split; [discriminate |].
    change (Main.split sep (String sep EmptyString) = [EmptyString; EmptyString]).
    cbn [Main.split]. now rewrite Ascii.eqb_refl.
  - destruct IH as (l & Hl & Hsplit).
    change (String c a +:+ String sep EmptyString)
      with (String c (a +:+ String sep EmptyString)).
    cbn [Main.split]. rewrite Hsplit.
    destruct (Ascii.eqb c sep).
    + exists (EmptyString :: l). split; [discriminate | reflexivity].
    + destruct l as [|x l]; [done |]. exists (String c x :: l).
      split; [discriminate | reflexivity].
Qed.

Lemma build_filter_keywords (to from_agent priority : option string) (s : string)
    (flt : MessageFilter.t) :
  s <> "" ->
  Main.build_filter to from_agent priority (Some s) = Some flt ->
  MessageFilter.to_agent flt = to
  /\ MessageFilter.from_agent flt = from_agent
  /\ MessageFilter.priority flt = priority
  /\ MessageFilter.keywords flt = Main.split ","%char s.
Proof.
  intros Hs. apply truthy_Some in Hs. unfold Main.build_filter. rewrite Hs.
  rewrite !orb_true_r. now intros [= <-].
Qed.

Section CommandLine.
Context `{PyRuntime}.

(** X17: the command line builds no filter exactly when none of
    [--to], [--from], [--priority], [--keywords] has a non-empty value;
    otherwise the filter holds the three values as given and, as its
    keywords, the pieces of the [--keywords] value between commas (no
    keyword when that value is absent or empty). *)
Theorem X17_command_line_filter (to from_agent priority keywords : option string) :
  (Main.build_filter to from_agent priority keywords = None <->
     MessageFilter.truthy to = false /\ MessageFilter.truthy from_agent = false
     /\ MessageFilter.truthy priority = false /\ MessageFilter.truthy keywords = false)
  /\ (forall flt, Main.build_filter to from_agent priority keywords = Some flt ->
      MessageFilter.to_agent flt = to
      /\ MessageFilter.from_agent flt = from_agent
      /\ MessageFilter.priority flt = priority
      /\ (MessageFilter.truthy keywords = false -> MessageFilter.keywords flt = [])
      /\ (forall s, keywords = Some s -> s <> "" ->
          MessageFilter.keywords flt = Main.split ","%char s)).
Proof.
  unfold Main.build_filter. split.
  - destruct (MessageFilter.truthy to), (MessageFilter.truthy from_agent),
      (MessageFilter.truthy priority), (MessageFilter.truthy keywords);
      cbn [orb]; split; try discriminate; try done; intros (? & ? & ? & ?); discriminate.
  - intros flt.
    destruct (_ || _ || _ || _); [| discriminate].
    intros [= <-]. unfold MessageFilter.__init__.
    cbn [MessageFilter.to_agent MessageFilter.from_agent MessageFilter.priority
         MessageFilter.keywords].
    conjs; try reflexivity.
    + destruct keywords as [s|]; [| reflexivity].
      intros Hs. cbn [MessageFilter.truthy] in Hs. now rewrite Hs.
    + intros s -> Hs. apply truthy_Some in Hs.
      cbn [MessageFilter.truthy] in Hs. now rewrite Hs.
Qed.

(** X18: the keywords taken from a [--keywords] value are its pieces
    between commas, as they stand: joined again with commas they give
    the value back, so nothing is trimmed or dropped, and no keyword
    holds a comma. *)
Theorem X18_keywords_round_trip (to from_agent priority : option string) (s : string)
    (flt : MessageFilter.t) :
  s <> "" ->
  Main.build_filter to from_agent priority (Some s) = Some flt ->
  String.concat "," (MessageFilter.keywords flt) = s
  /\ MessageFilter.keywords flt <> []
  /\ forall kw, In kw (MessageFilter.keywords flt) ->
       Builtins.contains_char ","%char kw = false.
Proof.
  intros Hs Hbuild.
  destruct (build_filter_keywords _ _ _ _ _ Hs Hbuild) as (_ & _ & _ & ->).
  split; [apply split_concat |]. split; [apply split_not_nil |].
  intros kw. apply split_pieces.
Qed.

(** X19: a [--keywords] value that ends with a comma has an empty last
    keyword, and the empty keyword occurs in every text: with no other
    option given, the filter lets every message with a string subject
    through, whatever the other keywords are. *)
Theorem X19_trailing_comma_matches_all (a : string) (flt : MessageFilter.t)
    (message : SynapseMessage.t) (subject : string) :
  str_lower "" = "" ->
  Main.build_filter None None None (Some (a +:+ ",")) = Some flt ->
  SynapseMessage.subject message = PyStr subject ->
  In "" (MessageFilter.keywords flt)
  /\ MessageFilter.matches flt message = Ok true.
Proof.
  intros Hlower Hbuild Hsubject.
  assert (a +:+ "," <> "") as Hne by (destruct a; discriminate).
  destruct (build_filter_keywords _ _ _ _ _ Hne Hbuild) as (Hto & Hfrom & Hprio & Hkws).
  assert (In "" (MessageFilter.keywords flt)) as Hin.
  { rewrite Hkws. destruct (split_trailing ","%char a) as (l & _ & ->).
    apply in_or_app. right. now left. }
  split; [exact Hin |].
  apply matches_true.
  unfold MessageFilter.to_agent_fails, MessageFilter.from_agent_fails,
    MessageFilter.priority_fails. rewrite Hto, Hfrom, Hprio.
  conjs; try reflexivity. right.
  unfold MessageFilter.keywords_pass. rewrite Hsubject. f_equal.
  apply existsb_exists. exists "". split; [exact Hin |].
  rewrite Hlower.
  generalize (str_lower (subject +:+ " " +:+ MessageFilter.body_text message)).
  intros [|c text]; reflexivity.
Qed.

End CommandLine.

(** ** Two more edges *)

Section Edges.
Context `{PyRuntime}.

(** X21: under a keyword filter a message whose subject is not a
    string cannot be searched: the [TypeError] raised by [matches] is
    caught by [_process_message], which logs it, calls no callback and
    returns normally. *)
Theorem X21_unsearchable_subject_is_dropped (self : t) (fs : FileSystem)
    (filepath : Path) (flt : MessageFilter.t) (m : SynapseMessage.t) :
  SynapseMessage.from_file fs filepath = Ok m ->
  message_filter self = Some flt ->
  MessageFilter.to_agent_fails flt m = false ->
  MessageFilter.from_agent_fails flt m = false ->
  MessageFilter.priority_fails flt m = false ->
  MessageFilter.keywords flt <> [] ->
  (forall s, SynapseMessage.subject m <> PyStr s) ->
  exists e,
    exc_cls e = TypeError
    /\ _process_message self fs filepath
       = ([Open filepath; Log ERROR (ErrorProcessing (name filepath) e)], None).
Proof.
  intros Hload Hflt Hto Hfrom Hprio Hkws Hsubject.
  unfold _process_message. rewrite Hload, Hflt.
  unfold MessageFilter.matches, MessageFilter.keywords_pass.
  rewrite Hto, Hfrom, Hprio.
  destruct (MessageFilter.keywords flt) as [|kw kws]; [done |].
  destruct (SynapseMessage.subject m) as [| | | |s| |];
    try (eexists; split; [| reflexivity]; reflexivity).
  now destruct (Hsubject s).
Qed.

(** X22: a [stop] called on a watcher that is not running is not
    remembered: the [start] that follows runs as if it had not been
    called. *)
Theorem X22_stop_before_start_is_lost (self : t) (start_dir : Listing)
    (cycles : list Cycle) :
  running self = false ->
  start (stop self).1 start_dir cycles = start self start_dir cycles.
Proof.
  intros Hidle. destruct self as [interval flt cbs seen run].
  cbn in Hidle. subst run. reflexivity.
Qed.

End Edges.

(** ** The further properties, run *)

Import Cases.

Lemma X1_unset_filter_matches_all_witness :
  MessageFilter.matches (MessageFilter.__init__ (Some "") None None (Some [])) odd_message
  = Ok true.
Proof. apply X1_unset_filter_matches_all; reflexivity. Defined.

Lemma X2_sender_check_witness :
  MessageFilter.matches (MessageFilter.__init__ None (Some "FORGE") None None) message
  = Ok false.
Proof.
  destruct (X2_sender_check (MessageFilter.__init__ None (Some "FORGE") None None)
              "FORGE" message) as [_ Hreject]; [reflexivity | discriminate |].
  apply Hreject. discriminate.
Defined.

Lemma X3_priority_check_witness :
  MessageFilter.matches critical_only message = Ok false.
Proof.
  destruct (X3_priority_check critical_only "CRITICAL" message) as [_ Hreject];
    [reflexivity | discriminate |].
  apply Hreject. discriminate.
Defined.

Lemma X6_payload_not_an_object_witness :
  exists e,
    SynapseMessage.from_file disk list_file = Raise e
    /\ exc_cls e = AttributeError
    /\ _process_message watching disk list_file
       = ([Open list_file; Log ERROR (ErrorProcessing "list.json" e)], None).
Proof.
  apply (X6_payload_not_an_object watching disk list_file (PyList [PyStr "m1"]));
    [reflexivity | discriminate].
Defined.

Lemma X7_rejected_message_is_consumed_witness :
  exists self1,
    poll picky one_new_file
    = (self1, [Open new_file; Log DEBUG (FilteredOut (PyStr "m1")); Sleep 5], None)
    /\ stem new_file ∈ seen_messages self1.
Proof.
  destruct (X7_rejected_message_is_consumed picky one_new_file new_file
              critical_only message) as (self1 & Hpoll & Hseen & _);
    try reflexivity.
  - apply not_elem_of_empty.
  - exists self1. split; [exact Hpoll | exact Hseen].
Defined.


Lemma X11_start_resets_running_witness :
  let run := start idle at_start [busy_cycle] in
  running run.1.1 = false /\ callbacks run.1.1 = callbacks idle.
Proof.
  intros run.
  destruct (X11_start_resets_running idle at_start [busy_cycle] run.1.1 run.1.2 run.2)
    as (Hrunning & Hcallbacks & _).
  - reflexivity.
  - subst run. now destruct (start idle at_start [busy_cycle]) as [[? ?] ?].
  - split; [exact Hrunning | exact Hcallbacks].
Defined.

Lemma X12_initial_scan_failure_witness :
  exists self' evs,
    start idle broken_listing [busy_cycle] = (self', evs, Raised denied)
    /\ running self' = false
    /\ seen_messages self' = seen_messages idle ∪ stems [new_file]
    /\ opened evs = [] /\ calls evs = []
    /\ (forall n, Sleep n ∉ evs)
    /\ Log INFO Stopped ∈ evs.
Proof.
  apply (X12_initial_scan_failure idle broken_listing [busy_cycle] denied); reflexivity.
Defined.

Lemma X13_stop_ends_the_loop_witness :
  let first := poll watching last_cycle in
  watch_cycles watching [last_cycle; busy_cycle]
  = (set_running first.1.1 false, first.1.2 ++ [Log INFO StopRequested], Returned).
Proof.
  intros first.
  apply (X13_stop_ends_the_loop watching first.1.1 last_cycle [busy_cycle] first.1.2);
    [reflexivity | | reflexivity].
  subst first. vm_compute. reflexivity.
Defined.

Lemma X14_no_callback_message_is_consumed_witness :
  exists self1,
    poll bare one_new_file
    = (self1, [Open new_file; Log INFO (NewMessage (PyStr "m1") (PyStr "A") (PyStr "hi"));
               Sleep 5], None)
    /\ forall cycles self' evs r,
         watch_cycles (register_all self1 [normal_callback]) cycles = (self', evs, r) ->
         new_file ∉ opened evs.
Proof.
  destruct (X14_no_callback_message_is_consumed bare one_new_file new_file message)
    as (self1 & Hpoll & Hlater); try reflexivity.
  - apply not_elem_of_empty.
  - exists self1. split; [exact Hpoll |].
    intros cycles self' evs r Hloop. exact (proj1 (Hlater _ _ _ _ _ Hloop)).
Defined.



Lemma X18_keywords_round_trip_witness :
  let flt := MessageFilter.__init__ None None None (Some ["urgent"; " critical"]) in
  String.concat "," (MessageFilter.keywords flt) = "urgent, critical"
  /\ MessageFilter.keywords flt <> []
  /\ forall kw, In kw (MessageFilter.keywords flt) ->
       Builtins.contains_char ","%char kw = false.
Proof.
  intros flt.
  apply (X18_keywords_round_trip None None None "urgent, critical" flt);
    [discriminate | reflexivity].
Defined.

Lemma X19_trailing_comma_matches_all_witness :
  let flt := MessageFilter.__init__ None None None (Some ["urgent"; ""]) in
  In "" (MessageFilter.keywords flt) /\ MessageFilter.matches flt message = Ok true.
Proof.
  intros flt.
  apply (X19_trailing_comma_matches_all "urgent" flt message "hi"); reflexivity.
Defined.

Lemma X20_seen_set_after_a_run_witness :
  let run := start idle at_start [busy_cycle] in
  seen_messages run.1.1
  = seen_messages idle ∪ stems [old_file] ∪ listed [busy_cycle].
Proof.
  intros run.
  destruct (X20_seen_set_after_a_run idle at_start [busy_cycle] run.1.1 run.1.2 run.2)
    as (ran & _ & Hseen & Hall).
  - reflexivity.
  - reflexivity.
  - subst run. now destruct (start idle at_start [busy_cycle]) as [[? ?] ?].
  - rewrite Hall in Hseen; [exact Hseen |]. vm_compute. reflexivity.
Defined.

Lemma X21_unsearchable_subject_is_dropped_witness :
  exists e,
    exc_cls e = TypeError
    /\ _process_message searching disk odd_file
       = ([Open odd_file; Log ERROR (ErrorProcessing "odd.json" e)], None).
Proof.
  apply (X21_unsearchable_subject_is_dropped searching disk odd_file
           keyword_filter odd_message); try reflexivity; discriminate.
Defined.

Lemma X22_stop_before_start_is_lost_witness :
  start (stop idle).1 at_start [busy_cycle] = start idle at_start [busy_cycle].
Proof. apply X22_stop_before_start_is_lost. reflexivity. Defined.
